(** * gamemap.js: binary map codecs for Cosmo (map-cosmo) and Dangerous Dave (map-ddave)

    Shallow embedding of the format handlers in [src/formats/map-cosmo.js] and
    [src/formats/map-ddave.js], of the handler base class
    [MapHandler] and of the base [Map2D] class in [src/interface/map2d.js].

    JavaScript numbers that hold integers are modelled as [Z]; the tile codes
    produced by the Cosmo masked-tile remapping (a division by 5 that need not
    be exact) are modelled as rationals [Q].  A JavaScript evaluation either
    returns a value, throws an exception, or loops forever. *)

From Stdlib Require Import String Ascii ZArith List Bool Lia QArith.
Import ListNotations.
Open Scope Z_scope.

(** ** JavaScript outcomes *)

Inductive exn : Type :=
| TypeError                      (* property read on [undefined] *)
| ReferenceError (name : string) (* identifier that is not declared *)
| RangeError                     (* read past the end of a [RecordBuffer] *)
| JsError (msg : string).        (* [throw new Error(msg)] *)

Inductive res (A : Type) : Type :=
| Ok (a : A)
| Throw (e : exn)
| Loops.                         (* the evaluation never terminates *)
Arguments Ok {A} a.
Arguments Throw {A} e.
Arguments Loops {A}.

Definition res_bind {A B} (r : res A) (k : A -> res B) : res B :=
  match r with
  | Ok a => k a
  | Throw e => Throw e
  | Loops => Loops
  end.

Definition res_is_ok {A} (r : res A) : bool :=
  match r with Ok _ => true | _ => false end.

Notation "x <-- r ;; k" := (res_bind r (fun x => k))
  (at level 61, r at next level, right associativity).

(** Decimal rendering of a number, as in a template literal [`${n}`]. *)
Fixpoint digits_aux (fuel : nat) (n : Z) (acc : string) : string :=
  match fuel with
  | O => acc
  | S f =>
      let acc' := String (ascii_of_nat (48 + Z.to_nat (n mod 10))) acc in
      if n <? 10 then acc' else digits_aux f (n / 10) acc'
  end.

Definition string_of_Z (z : Z) : string :=
  if z <? 0 then ("-" ++ digits_aux 400 (- z) "")%string
  else digits_aux 400 z "".

(** ** Reading a [RecordBuffer]

    The reader keeps the bytes not yet read and the byte offset reached.
    [RecordBuffer] comes from [@camoto/record-io-buffer]; a read past the end
    is taken to throw, as the [DataView] it wraps does. *)

Record rbuf : Type := mkRbuf { rest : list Z; pos : nat }.

Definition rd (A : Type) : Type := rbuf -> res (A * rbuf).

Definition rd_ret {A} (a : A) : rd A := fun b => Ok (a, b).
Definition rd_bind {A B} (m : rd A) (k : A -> rd B) : rd B :=
  fun b => res_bind (m b) (fun '(a, b') => k a b').

Notation "x <- m ;; k" := (rd_bind m (fun x => k))
  (at level 61, m at next level, right associativity).

(** The little-endian u16 at byte offset [k]. *)
Definition u16_at (r : list Z) (k : nat) : Z := nth k r 0 + 256 * nth (S k) r 0.

(** [buffer.read(RecordType.int.u16le)] *)
Definition read_u16le : rd Z :=
  fun b =>
    match rest b with
    | lo :: hi :: t => Ok (lo + 256 * hi, mkRbuf t (S (S (pos b))))
    | _ => Throw RangeError
    end.

(** [arr[i]] for an integer [i]: [None] is [undefined]. *)
Fixpoint js_index {A} (l : list A) (i : Z) : option A :=
  match l with
  | [] => None
  | a :: t => if i =? 0 then Some a else if i <? 0 then None else js_index t (i - 1)
  end.

(** ** Map model *)

(** A tile code: [None] is [undefined] (no tile). *)
Definition tile := option Q.

Record item : Type := mkItem { icode : Z; ix : Z; iy : Z }.

Inductive layer : Type :=
| Tiled (tiles : list (list tile))   (* Map2D_Layer_Tiled *)
| Listed (items : list item).        (* Map2D_Layer_List *)

(** [tiles[y][x]] on a grid, [None] when out of range. *)
Definition cell (g : list (list tile)) (y x : nat) : option tile :=
  match nth_error g y with Some row => nth_error row x | None => None end.

Record point : Type := mkPoint { ptx : Z; pty : Z }.

Inductive attrval : Type := VNum (n : Z) | VBool (b : bool).

Record map2d : Type := mkMap {
  layers : list layer;
  paths : option (list (list point));  (* [map.paths], [None] = undefined *)
  mapSize : option (Z * Z);            (* [map.mapSize], [None] = undefined *)
  attributes : list (string * attrval) (* [map.attributes[id].value] *)
}.

Definition attr_value (m : map2d) (id : string) : res attrval :=
  match find (fun kv => String.eqb (fst kv) id) (attributes m) with
  | Some (_, v) => Ok v
  | None => Throw TypeError
  end.

(** ** Format A: map-cosmo *)
Module Cosmo.

Definition HEADER_LEN := 6.
Definition ACTOR_LEN := 6.
Definition ACTOR_LEN_UINT16 := 3.
Definition MAX_PLAYERS := 1.
Definition MAX_PLATFORMS := 10.
Definition MAX_LIGHTS := 199.
Definition MAX_ACTORS := 410.
Definition COSMO_BG_LEN := 32764.

Record header : Type := mkHeader { flags : Z; mapWidth : Z; lenActorChunk : Z }.

Definition read_header : rd header :=
  f <- read_u16le ;; w <- read_u16le ;; l <- read_u16le ;;
  rd_ret (mkHeader f w l).

Record cflags : Type := mkFlags {
  music : Z; animation : Z; bgScrollY : bool; bgScrollX : bool;
  rain : bool; backdrop : Z }.

(** The flag decoding at the top of [parse]. *)
Definition decode_flags (f : Z) : cflags :=
  mkFlags (Z.land (Z.shiftr f 11) 31)
          (Z.land (Z.shiftr f 8) 7)
          (negb (Z.land f 128 =? 0))
          (negb (Z.land f 64 =? 0))
          (negb (Z.land f 32 =? 0))
          (Z.land f 31).

(** [x & mask] on an attribute value, and truthiness for [x ? a : b]. *)
Definition js_int (v : attrval) : Z :=
  match v with VNum n => n | VBool b => if b then 1 else 0 end.
Definition js_truthy (v : attrval) : bool :=
  match v with VNum n => negb (n =? 0) | VBool b => b end.

(** The flag encoding of [generate]. *)
Definition encode_flags (bgmusic animation bgScrollY bgScrollX rain backdrop : attrval) : Z :=
  Z.lor (Z.lor (Z.lor (Z.lor (Z.lor
    (Z.shiftl (Z.land (js_int bgmusic) 31) 11)
    (Z.shiftl (Z.land (js_int animation) 7) 8))
    (if js_truthy bgScrollY then 128 else 0))
    (if js_truthy bgScrollX then 64 else 0))
    (if js_truthy rain then 32 else 0))
    (Z.land (js_int backdrop) 31).

(** The actor loop [for (i = 0; i < lenActorChunk / ACTOR_LEN_UINT16; i++)]
    divides in floating point, so it runs ceil(lenActorChunk / 3) times. *)
Definition actor_iterations (lenActorChunk : Z) : nat :=
  Z.to_nat ((lenActorChunk + 2) / ACTOR_LEN_UINT16).

Fixpoint read_actors (n : nat) : rd (list item) :=
  match n with
  | O => rd_ret []
  | S k =>
      t <- read_u16le ;; x <- read_u16le ;; y <- read_u16le ;;
      rest_actors <- read_actors k ;;
      rd_ret (mkItem t x y :: rest_actors)
  end.

(** Body of the tile loop: [0] becomes [undefined]; any other code [c]
    becomes [Math.floor(c / 8)], and codes above 2000 are remapped to
    [2000 + (tileCode - 2000) / 5]. *)
Definition tile_of_code (code : Z) : tile :=
  if code =? 0 then None
  else
    let tileCode := code / 8 in
    if tileCode >? 2000
    then Some (inject_Z 2000 + inject_Z (tileCode - 2000) / inject_Z 5)%Q
    else Some (inject_Z tileCode).

Fixpoint read_row (w : nat) : rd (list tile) :=
  match w with
  | O => rd_ret []
  | S k => code <- read_u16le ;; r <- read_row k ;; rd_ret (tile_of_code code :: r)
  end.

Fixpoint read_rows (h w : nat) : rd (list (list tile)) :=
  match h with
  | O => rd_ret []
  | S k => row <- read_row w ;; rs <- read_rows k w ;; rd_ret (row :: rs)
  end.

(** [new Map2D_Cosmo(tileCodes, actors)]: the [Layer_CosmoBG] constructor reads
    [tiles[0].length], which throws on an empty grid; the actor layer is
    commented out, so the map has the background layer only.  The [Map2D]
    constructor leaves [mapSize] undefined. *)
Definition new_Map2D_Cosmo (tileCodes : list (list tile)) (actors : list item)
    (attrs : list (string * attrval)) : res map2d :=
  match tileCodes with
  | [] => Throw TypeError
  | _ :: _ => Ok (mkMap [Tiled tileCodes] None None attrs)
  end.

Definition parse_attributes (fl : cflags) : list (string * attrval) :=
  [("bgmusic", VNum (music fl)); ("animation", VNum (animation fl));
   ("backdrop", VNum (backdrop fl)); ("bgScrollX", VBool (bgScrollX fl));
   ("bgScrollY", VBool (bgScrollY fl)); ("rain", VBool (rain fl))]%string.

(** [Map_Cosmo.parse], returning the map together with the reader state at the
    end, so that the number of bytes consumed can be observed.  A map width of
    0 gives [mapH = Infinity] and a row loop that never ends. *)
Definition parse_body : rd map2d :=
  hd <- read_header ;;
  let fl := decode_flags (flags hd) in
  actors <- read_actors (actor_iterations (lenActorChunk hd)) ;;
  let mapW := mapWidth hd in
  fun b =>
    if mapW =? 0 then Loops
    else
      let mapH := COSMO_BG_LEN / mapW in
      res_bind (read_rows (Z.to_nat mapH) (Z.to_nat mapW) b) (fun '(tileCodes, b') =>
      res_bind (new_Map2D_Cosmo tileCodes actors (parse_attributes fl)) (fun m =>
      Ok (m, b'))).

Definition parse_run (content : list Z) : res (map2d * rbuf) :=
  parse_body (mkRbuf content 0).

Definition parse (content : list Z) : res map2d :=
  res_bind (parse_run content) (fun '(m, _) => Ok m).

(** Writing a number with [RecordType.int.u16le] ([ToUint16]). *)
Definition u16le_bytes (v : Z) : list Z :=
  let u := v mod 65536 in [u mod 256; u / 256].

Definition q_to_uint16 (q : Q) : Z := Z.quot (Qnum q) (Zpos (Qden q)).

(** [tileCodes[y][x] || 0] *)
Definition tile_value (t : tile) : Z :=
  match t with None => 0 | Some q => q_to_uint16 q end.

(** One iteration of the tile loop of [generate]: [y = Math.floor(i / mapX)],
    [x = i % mapX]; a missing row throws, a missing cell reads [undefined]. *)
Definition gen_tile (tileCodes : list (list tile)) (mapX i : Z) : res Z :=
  if mapX =? 0 then Throw TypeError
  else
    let y := i / mapX in
    let x := Z.rem i mapX in
    match js_index tileCodes y with
    | None => Throw TypeError
    | Some row =>
        match js_index row x with
        | Some t => Ok (tile_value t)
        | None => Ok 0
        end
    end.

(** The loop counter [i = start, start + 1, ...], [n] values. *)
Fixpoint zrange (start : Z) (n : nat) : list Z :=
  match n with O => [] | S k => start :: zrange (start + 1) k end.

Fixpoint gen_tiles (tileCodes : list (list tile)) (mapX : Z) (is : list Z) : res (list Z) :=
  match is with
  | [] => Ok []
  | i :: is' =>
      v <-- gen_tile tileCodes mapX i ;;
      vs <-- gen_tiles tileCodes mapX is' ;;
      Ok (u16le_bytes v ++ vs)%list
  end.

Definition layer_items (l : option layer) : res (list item) :=
  match l with Some (Listed items) => Ok items | _ => Throw TypeError end.

Definition layer_tiles (l : option layer) : res (list (list tile)) :=
  match l with Some (Tiled t) => Ok t | _ => Throw TypeError end.

Definition actor_bytes (a : item) : list Z :=
  (u16le_bytes (icode a) ++ u16le_bytes (ix a) ++ u16le_bytes (iy a))%list.

(** [Map_Cosmo.generate].  The output buffer is taken to grow as it is
    written, and [getU8()] to return the bytes written. *)
Definition generate (m : map2d) : res (list Z) :=
  items <-- layer_items (nth_error (layers m) 1) ;;
  let numActors := Z.of_nat (List.length items) in
  mapX <-- (match mapSize m with Some (x, _) => Ok x | None => Throw TypeError end) ;;
  vmus <-- attr_value m "bgmusic"%string ;;
  vani <-- attr_value m "animation"%string ;;
  vsy <-- attr_value m "bgScrollY"%string ;;
  vsx <-- attr_value m "bgScrollX"%string ;;
  vrain <-- attr_value m "rain"%string ;;
  vback <-- attr_value m "backdrop"%string ;;
  let hd := mkHeader (encode_flags vmus vani vsy vsx vrain vback) mapX
                     (numActors * ACTOR_LEN_UINT16) in
  tileCodes <-- layer_tiles (nth_error (layers m) 0) ;;
  tilebytes <-- gen_tiles tileCodes mapX (zrange 0 (Z.to_nat COSMO_BG_LEN)) ;;
  Ok (u16le_bytes (flags hd) ++ u16le_bytes (mapWidth hd) ++ u16le_bytes (lenActorChunk hd)
      ++ flat_map actor_bytes items ++ tilebytes)%list.

End Cosmo.

(** ** Format B: map-ddave *)
Module DDave.

Definition DD_LAYER_LEN_PATH := 256.
Definition DD_MAX_PATH := 128.
Definition DD_PAD_LEN := 24.
Definition DD_TILE_WIDTH := 16.
Definition DD_TILE_HEIGHT := 16.
Definition DD_DEFAULT_BGTILE := 0.
Definition DD_PATH_END := 234. (* 0xEA *)

(** [content[i]]; only read at indices inside the buffer. *)
Definition byte_at (content : list Z) (i : nat) : Z := nth i content 0.

(** The path loop of [parse]: pairs of bytes up to the first (0xEA, 0xEA)
    pair, at most [DD_LAYER_LEN_PATH / 2] of them.  The result is dropped:
    [map.paths.push(path)] is commented out. *)
Fixpoint parse_path (n : nat) (i : nat) (content : list Z) : list point :=
  match n with
  | O => []
  | S k =>
      if (byte_at content i =? DD_PATH_END) && (byte_at content (S i) =? DD_PATH_END)
      then []
      else mkPoint (byte_at content i) (byte_at content (S i))
             :: parse_path k (S (S i)) content
  end.

(** The background loop: [mapH] rows of [mapW] bytes from [offset]. *)
Definition parse_bg (mapW mapH offset : nat) (content : list Z) : list (list tile) :=
  map (fun y => map (fun x => Some (inject_Z (byte_at content (offset + y * mapW + x))))
                    (seq 0 mapW))
      (seq 0 mapH).

Record enemy_info : Type := mkEnemy {
  enabled : bool; pixelX : Z; pixelY : Z; pathOffset : Z; calmness : Z }.

(** [enemyData.read(u16le)] at an absolute offset of the [enemy] buffer; the
    [seekRel] calls are taken not to check bounds, only reads do. *)
Definition read_u16_at (e : list Z) (k : nat) : res Z :=
  if Nat.leb (k + 2) (List.length e)
  then Ok (nth k e 0 + 256 * nth (S k) e 0)
  else Throw RangeError.

(** One iteration of the enemy loop: [seekAbs(2 * i)], then five reads each
    followed by [seekRel(3 * 2)]. *)
Definition read_enemy (e : list Z) (i : nat) : res enemy_info :=
  en <-- read_u16_at e (2 * i) ;;
  px <-- read_u16_at e (2 * i + 8) ;;
  py <-- read_u16_at e (2 * i + 16) ;;
  po <-- read_u16_at e (2 * i + 24) ;;
  ca <-- read_u16_at e (2 * i + 32) ;;
  Ok (mkEnemy (negb (en =? 0)) px py po ca).

Fixpoint read_enemies (e : list Z) (is : list nat) : res (list enemy_info) :=
  match is with
  | [] => Ok []
  | i :: is' => en <-- read_enemy e i ;; ens <-- read_enemies e is' ;; Ok (en :: ens)
  end.

Definition parse_enemies (enemy : option (list Z)) : res (list enemy_info) :=
  match enemy with
  | None => Ok []
  | Some e => read_enemies e (seq 0 4)
  end.

(** [MapLayer_DDave_Monsters]: one item per enabled enemy, [code] its index. *)
Fixpoint monster_items (ens : list enemy_info) (i : Z) : list item :=
  match ens with
  | [] => []
  | en :: ens' =>
      if enabled en
      then mkItem i (pixelX en) (pixelY en - 16) :: monster_items ens' (i + 1)
      else monster_items ens' (i + 1)
  end.

Record options : Type := mkOptions {
  monsterTileIndex : option Z;
  playerStartX : option Z;
  playerStartY : option Z }.

Definition default_options : options := mkOptions None None None.

(** [new Map2D_DDave(bgTiles, enemyList, options)]: a player start makes the
    constructor instantiate [MapLayer_DDave_Player], which is not declared. *)
Definition new_Map2D_DDave (bgTiles : list (list tile)) (ens : list enemy_info)
    (opts : options) : res map2d :=
  match playerStartX opts with
  | Some _ => Throw (ReferenceError "MapLayer_DDave_Player")
  | None => Ok (mkMap [Tiled bgTiles; Listed (monster_items ens 0)] None None [])
  end.

(** [Map_DDave.parse({main: content, enemy}, options)] *)
Definition parse (content : list Z) (enemy : option (list Z)) (opts : options) : res map2d :=
  let len := Z.of_nat (List.length content) in
  sz <-- (if len =? 10 * 7 then Ok (10%nat, 7%nat, false)
          else if len =? 1280 then Ok (100%nat, 10%nat, true)
          else Throw (JsError ("Unrecognised map size: " ++ string_of_Z len ++ ".")%string)) ;;
  let '(mapW, mapH, hasPath) := sz in
  let offset := if hasPath then Z.to_nat DD_LAYER_LEN_PATH else 0%nat in
  let _path := if hasPath then parse_path 128 0 content else [] in
  let bgTiles := parse_bg mapW mapH offset content in
  ens <-- parse_enemies enemy ;;
  new_Map2D_DDave bgTiles ens opts.

(** [Map_DDave.generate]: its first statement, [new RecordBuffer(DD_FILESIZE)],
    names a constant whose declaration is commented out. *)
Definition generate (m : map2d) : res (list Z) :=
  Throw (ReferenceError "DD_FILESIZE").

End DDave.

(** ** Handlers and [checkLimits]

    The issue list that [checkLimits] returns is a JavaScript array on the
    heap.  The state is the map being checked together with the heap of
    arrays (an array is its index in the heap), so that the effects of a call
    on the map and on the arrays it allocates are both visible. *)

Inductive handler : Type := MapHandler | Map_Cosmo | Map_DDave.

Record cstate : Type := mkCState { st_map : map2d; st_heap : list (list string) }.

Inductive jsret : Type := RetUndefined | RetArray (addr : nat).

Definition cm (A : Type) : Type := cstate -> res A * cstate.

Definition cm_ret {A} (a : A) : cm A := fun s => (Ok a, s).
Definition cm_bind {A B} (c : cm A) (k : A -> cm B) : cm B :=
  fun s =>
    match c s with
    | (Ok a, s') => k a s'
    | (Throw e, s') => (Throw e, s')
    | (Loops, s') => (Loops, s')
    end.
Definition cm_lift {A} (r : res A) : cm A := fun s => (r, s).

Notation "x <~ c ;; k" := (cm_bind c (fun x => k))
  (at level 61, c at next level, right associativity).

Definition get_map : cm map2d := fun s => (Ok (st_map s), s).

(** [[]]: a fresh array at the end of the heap. *)
Definition alloc_array : cm nat :=
  fun s => (Ok (List.length (st_heap s)), mkCState (st_map s) (st_heap s ++ [[]])).

Fixpoint update_nth {A} (n : nat) (f : A -> A) (l : list A) : list A :=
  match n, l with
  | _, [] => []
  | O, x :: t => f x :: t
  | S k, x :: t => x :: update_nth k f t
  end.

(** [issues.push(v)] *)
Definition push (a : nat) (v : string) : cm unit :=
  fun s => (Ok tt, mkCState (st_map s) (update_nth a (fun l => l ++ [v]) (st_heap s))).

Definition when (b : bool) (c : cm unit) : cm unit := if b then c else cm_ret tt.

(** [MapHandler.checkLimits]: reads [this.metadata()] (no [limits] field) and
    returns a new empty array. *)
Definition base_checkLimits : cm nat := alloc_array.

Definition cosmo_msg_actors (n : Z) : string :=
  ("There are too many items in the actor layer (" ++ string_of_Z n
   ++ "), the maximum is " ++ string_of_Z Cosmo.MAX_ACTORS ++ ".")%string.
Definition cosmo_msg_players (n : Z) : string :=
  ("There are too many player sprites in the actor layer (" ++ string_of_Z n
   ++ "), the maximum is " ++ string_of_Z Cosmo.MAX_PLAYERS ++ ".")%string.
Definition cosmo_msg_platforms (n : Z) : string :=
  ("There are too many platform/mud fountain sprites in the actor layer ("
   ++ string_of_Z n ++ "), the maximum is " ++ string_of_Z Cosmo.MAX_PLATFORMS ++ ".")%string.
Definition cosmo_msg_lights (n : Z) : string :=
  ("There are too many light sprites in the actor layer (" ++ string_of_Z n
   ++ "), the maximum is " ++ string_of_Z Cosmo.MAX_LIGHTS ++ ".")%string.

(** The counting loop over [map.layers[1].items]. *)
Fixpoint count_actors (items : list item) (acc : Z * Z * Z) : Z * Z * Z :=
  match items with
  | [] => acc
  | a :: t =>
      let '(pl, pf, li) := acc in
      let c := icode a in
      let acc' :=
        if c =? 0 then (pl + 1, pf, li)
        else if (1 <=? c) && (c <=? 5) then (pl, pf + 1, li)
        else if (6 <=? c) && (c <=? 8) then (pl, pf, li + 1)
        else (pl, pf, li) in
      count_actors t acc'
  end.

(** [Map_Cosmo.checkLimits] *)
Definition cosmo_checkLimits : cm jsret :=
  issues <~ base_checkLimits ;;
  m <~ get_map ;;
  items <~ cm_lift (Cosmo.layer_items (nth_error (layers m) 1)) ;;
  let actorCount := Z.of_nat (List.length items) in
  _ <~ when (actorCount >? Cosmo.MAX_ACTORS) (push issues (cosmo_msg_actors actorCount)) ;;
  let '(playerCount, platformCount, lightCount) := count_actors items (0, 0, 0) in
  _ <~ when (playerCount >? Cosmo.MAX_PLAYERS) (push issues (cosmo_msg_players playerCount)) ;;
  _ <~ when (platformCount >? Cosmo.MAX_PLATFORMS) (push issues (cosmo_msg_platforms platformCount)) ;;
  _ <~ when (lightCount >? Cosmo.MAX_LIGHTS) (push issues (cosmo_msg_lights lightCount)) ;;
  cm_ret (RetArray issues).

Definition ddave_msg_sentinel (index : nat) (pt : point) : string :=
  ("Point #" ++ string_of_Z (Z.of_nat index + 1) ++ " in the path at ("
   ++ string_of_Z (ptx pt) ++ ", " ++ string_of_Z (pty pt) ++ ")"
   ++ " ends up at a special value reserved for indicating the end "
   ++ "of the path.  Please move this point by at least one pixel in "
   ++ "any direction to avoid this conflict.")%string.

(** [map.paths[0].forEach((pt, index) => ...)], with [lastX]/[lastY]. *)
Fixpoint ddave_path_loop (issues : nat) (pts : list point) (index : nat)
    (last : option point) : cm unit :=
  match pts with
  | [] => cm_ret tt
  | pt :: t =>
      _ <~ match last with
           | Some lp =>
               when ((ptx pt - ptx lp =? DDave.DD_PATH_END)
                     && (pty pt - pty lp =? DDave.DD_PATH_END))
                    (push issues (ddave_msg_sentinel index pt))
           | None => cm_ret tt
           end ;;
      ddave_path_loop issues t (S index) (Some pt)
  end.

(** [Map_DDave.checkLimits]: the over-long path message reads [map.path[0]]
    ([map.path] is undefined), and the function ends without [return]. *)
Definition ddave_checkLimits : cm jsret :=
  issues <~ base_checkLimits ;;
  m <~ get_map ;;
  _ <~ match paths m with
       | Some (p0 :: _) =>
           if Z.of_nat (List.length p0) >? DDave.DD_MAX_PATH
           then cm_lift (Throw TypeError)
           else ddave_path_loop issues p0 0 None
       | _ => cm_ret tt
       end ;;
  cm_ret RetUndefined.

Definition checkLimits (h : handler) : cm jsret :=
  match h with
  | MapHandler => issues <~ base_checkLimits ;; cm_ret (RetArray issues)
  | Map_Cosmo => cosmo_checkLimits
  | Map_DDave => ddave_checkLimits
  end.

(** What the caller gets back: an exception, [undefined], or an array with
    its contents at the time of return. *)
Inductive observed : Type := NoValue | IssueList (l : list string).

Definition observe (r : res jsret * cstate) : res observed :=
  let '(rv, s) := r in
  res_bind rv (fun v =>
    match v with
    | RetUndefined => Ok NoValue
    | RetArray a => Ok (IssueList (nth a (st_heap s) []))
    end).

(** [supps(name, content)]: the method is defined by [MapHandler] only;
    [Map_Cosmo] and [Map_DDave] inherit it.  [None] is [null]. *)
Definition parent (h : handler) : option handler :=
  match h with MapHandler => None | Map_Cosmo | Map_DDave => Some MapHandler end.

Definition own_supps (h : handler)
    : option (string -> list Z -> option (list (string * string))) :=
  match h with
  | MapHandler => Some (fun _ _ => None)
  | Map_Cosmo | Map_DDave => None
  end.

Fixpoint resolve_supps (fuel : nat) (h : handler)
    : option (string -> list Z -> option (list (string * string))) :=
  match own_supps h with
  | Some f => Some f
  | None =>
      match fuel, parent h with
      | S k, Some p => resolve_supps k p
      | _, _ => None
      end
  end.

Definition supps (h : handler) (name : string) (content : list Z)
    : res (option (list (string * string))) :=
  match resolve_supps 2 h with
  | Some f => Ok (f name content)
  | None => Throw TypeError
  end.

(** ** The command-line front end: [Operations.open] and [Operations.save]

    A file set is a JavaScript object from ids to file contents, modelled as
    an association list in which an assignment replaces the previous value. *)
Module Cli.

Local Open Scope string_scope.

Definition obj : Type := list (string * list Z).

Definition obj_get (o : obj) (k : string) : option (list Z) :=
  option_map snd (find (fun kv => String.eqb (fst kv) k) o).

Definition obj_set (o : obj) (k : string) (v : list Z) : obj :=
  (k, v) :: filter (fun kv => negb (String.eqb (fst kv) k)) o.

(** [handler.parse(content)]: [Map_Cosmo.parse] reads [content.main];
    [Map_DDave.parse] reads [content.main] and [content.enemy], with the
    default [options = {}]; [MapHandler.parse] throws. *)
Definition handler_parse (h : handler) (content : obj) : res map2d :=
  match h with
  | MapHandler => Throw (JsError "Not implemented yet.")
  | Map_Cosmo =>
      match obj_get content "main" with
      | Some main => Cosmo.parse main
      | None => Throw TypeError
      end
  | Map_DDave =>
      match obj_get content "main" with
      | Some main => DDave.parse main (obj_get content "enemy") DDave.default_options
      | None => Throw TypeError
      end
  end.

Definition handler_generate (h : handler) (m : map2d) : res (list Z) :=
  match h with
  | MapHandler => Throw (JsError "Not implemented yet.")
  | Map_Cosmo => Cosmo.generate m
  | Map_DDave => DDave.generate m
  end.

(** The loop of [open] over [Object.entries(suppList)]: [fs] gives the bytes
    of a file, [None] when [fs.readFileSync] fails, which [open] turns into an
    [OperationsError] (the message ends with the file name and the error). *)
Fixpoint load_supps (fs : string -> option (list Z)) (l : list (string * string))
    (content : obj) : res obj :=
  match l with
  | [] => Ok content
  | (id, fname) :: t =>
      match fs fname with
      | None => Throw (JsError "open: unable to open supplementary file")
      | Some c => load_supps fs t (obj_set content id c)
      end
  end.

(** [Operations.open], from the point where the main file [target] has been
    read as [main]; the result is [this.map]. *)
Definition cli_open (fs : string -> option (list Z)) (h : handler) (target : string)
    (main : list Z) : res map2d :=
  suppList <-- supps h target main ;;
  content <-- (match suppList with
               | None => Ok [("main", main)]
               | Some l => load_supps fs l [("main", main)]
               end) ;;
  handler_parse h content.

(** The loop of [save] over [Object.entries(suppList)]: each supplementary
    file is written with [outContent[id]]; the handlers' [generate] returns
    [main] only, and [fs.promises.writeFile] rejects [undefined] data with a
    TypeError. *)
Fixpoint save_supps (out : obj) (l : list (string * string)) : res (list (string * list Z)) :=
  match l with
  | [] => Ok []
  | (id, fname) :: t =>
      match obj_get out id with
      | None => Throw TypeError
      | Some c => rest <-- save_supps out t ;; Ok ((fname, c) :: rest)
      end
  end.

(** [Operations.save]: [problems.length] on the value [checkLimits] returns,
    an [OperationsError] when it is non-zero, then [generate] and the files
    written (name and bytes).  [heap] holds the arrays that exist before the
    call. *)
Definition cli_save (h : handler) (m : map2d) (target : string)
    (heap : list (list string)) : res (list (string * list Z)) :=
  problems <-- observe (checkLimits h (mkCState m heap)) ;;
  match problems with
  | NoValue => Throw TypeError
  | IssueList (_ :: _) =>
      Throw (JsError "save: cannot save due to file format limitations.")
  | IssueList [] =>
      main <-- handler_generate h m ;;
      suppList <-- supps h target main ;;
      written <-- (match suppList with
                   | None => Ok []
                   | Some l => save_supps [("main", main)] l
                   end) ;;
      Ok (written ++ [(target, main)])%list
  end.

End Cli.

(** ** [Map2D.queryResize] and [Map2D.resize] *)
Module Map2D.

(** A number that may be [NaN]; limits may be [undefined] ([None]). *)
Inductive num : Type := Num (z : Z) | NaN.

Record size : Type := mkSize { sx : Z; sy : Z }.

Record limits : Type := mkLimits {
  minimumMapSize : option Z * option Z;
  maximumMapSize : option Z * option Z }.

Definition math_min (a : num) (b : option Z) : num :=
  match a, b with Num x, Some y => Num (Z.min x y) | _, _ => NaN end.
Definition math_max (a : num) (b : option Z) : num :=
  match a, b with Num x, Some y => Num (Z.max x y) | _, _ => NaN end.

(** [queryResize(proposed)] clamps a copy of [proposed] and falls off its
    end, so the call evaluates to [undefined] ([None]). *)
Definition queryResize (lim : limits) (proposed : size) : option (num * num) :=
  let px := math_max (math_min (Num (sx proposed)) (fst (maximumMapSize lim)))
                     (fst (minimumMapSize lim)) in
  let py := math_max (math_min (Num (sy proposed)) (snd (maximumMapSize lim)))
                     (snd (minimumMapSize lim)) in
  let _permitted := (px, py) in
  None.

Definition num_eqb (a : num) (z : Z) : bool :=
  match a with Num x => x =? z | NaN => false end.

(** [resize(newSize)]: [permitted.x] on [undefined] throws. *)
Definition resize (lim : limits) (newSize : size) : res unit :=
  match queryResize lim newSize with
  | None => Throw TypeError
  | Some (px, py) =>
      if negb (num_eqb px (sx newSize)) || negb (num_eqb py (sy newSize))
      then Throw (JsError "Requested map size is invalid.")
      else Ok tt
  end.

End Map2D.

(** ** Concrete inputs *)
Module Samples.

Definition zeros (n : positive) : list Z := Pos.iter (cons 0) [] n.

(** A Cosmo file with the given map width, no actors, and [words] zero tile
    codes. *)
Definition cosmo_file (w : Z) (words : positive) : list Z :=
  ([0; 0; w mod 256; w / 256; 0; 0] ++ zeros (xO words))%list.

Definition cosmo_attrs (mus ani : Z) (scrollX scrollY rn : bool) (bd : Z)
    : list (string * attrval) :=
  [("bgmusic", VNum mus); ("animation", VNum ani); ("bgScrollX", VBool scrollX);
   ("bgScrollY", VBool scrollY); ("rain", VBool rn); ("backdrop", VNum bd)]%string.

(** A map [Map_Cosmo.generate] can write: an actor layer at index 1, a
    [mapSize] of 32764 x 1, and a one-cell background row. *)
Definition cosmo_writable_map (attrs : list (string * attrval)) : map2d :=
  mkMap [Tiled [[None]]; Listed []] None (Some (32764, 1)) attrs.

(** An [enemy] buffer whose first enemy is enabled at pixel (100, 50). *)
Definition enemy_one : list Z :=
  ([1; 0; 0; 0; 0; 0; 0; 0; 100; 0; 0; 0; 0; 0; 0; 0; 50; 0] ++ zeros 62)%list.

End Samples.

(** ** Field-wise comparison of Cosmo flag records, and the finite box of
    masked flag values *)
Module FlagBox.

(** Equality test on [cflags]. *)
Definition cflags_eqb (f g : Cosmo.cflags) : bool :=
  (Cosmo.music f =? Cosmo.music g) && (Cosmo.animation f =? Cosmo.animation g) &&
  Bool.eqb (Cosmo.bgScrollY f) (Cosmo.bgScrollY g) && Bool.eqb (Cosmo.bgScrollX f) (Cosmo.bgScrollX g) &&
  Bool.eqb (Cosmo.rain f) (Cosmo.rain g) && (Cosmo.backdrop f =? Cosmo.backdrop g).

(** [decode_flags] inverts [encode_flags] on every masked field value. *)
Definition flags_box_ok : bool :=
  forallb (fun a => forallb (fun b => forallb (fun d =>
    forallb (fun sy => forallb (fun sx => forallb (fun rn =>
      cflags_eqb (Cosmo.decode_flags (Cosmo.encode_flags (VNum a) (VNum b) (VBool sy) (VBool sx) (VBool rn) (VNum d)))
                 (Cosmo.mkFlags a b sy sx rn d))
    [true; false]) [true; false]) [true; false])
    (Cosmo.zrange 0 32)) (Cosmo.zrange 0 8)) (Cosmo.zrange 0 32).

End FlagBox.

(** ** Closed forms of loop results, used to state properties of the code *)
Module Views.

(** The number of items whose code satisfies [p]. *)
Definition count_where (p : Z -> bool) (items : list item) : Z :=
  Z.of_nat (List.length (filter (fun a => p (icode a)) items)).

(** The [i]-th record of a Dangerous Dave [enemy] buffer read at the
    offsets of [Map_DDave.parse]. *)
Definition enemy_record (e : list Z) (i : nat) : DDave.enemy_info :=
  DDave.mkEnemy (negb (u16_at e (2 * i) =? 0)) (u16_at e (2 * i + 8)) (u16_at e (2 * i + 16))
                (u16_at e (2 * i + 24)) (u16_at e (2 * i + 32)).

(** The actor [MapLayer_DDave_Monsters] makes of enemy [i]. *)
Definition enemy_item (e : list Z) (i : nat) : item :=
  mkItem (Z.of_nat i) (u16_at e (2 * i + 8)) (u16_at e (2 * i + 16) - 16).

(** A step of [(0xEA, 0xEA)] between two consecutive path points. *)
Definition sentinel_step (prev pt : point) : bool :=
  (ptx pt - ptx prev =? DDave.DD_PATH_END) && (pty pt - pty prev =? DDave.DD_PATH_END).

Definition origin : point := mkPoint 0 0.

End Views.

(** ** Maps and buffers used as concrete inputs *)
Module MoreSamples.

(** A map with two players and one light among its three actors. *)
Definition actors_map : map2d :=
  mkMap [Tiled [[None]]; Listed [mkItem 0 0 0; mkItem 0 3 3; mkItem 7 1 1]] None None [].

(** A map with its background layer only, as [Map_Cosmo.parse] builds. *)
Definition bg_only_map : map2d := mkMap [Tiled [[None]]] None None [].

(** A writable Cosmo map whose one cell holds tile code 80. *)
Definition cosmo_tile80_map : map2d :=
  mkMap [Tiled [[Some (inject_Z 80)]]; Listed []] None (Some (32764, 1))
        (Samples.cosmo_attrs 5 3 true false true 17).

(** A path whose second and third points each lie (0xEA, 0xEA) after the
    point before. *)
Definition sentinel_path_map : map2d :=
  mkMap [] (Some [[mkPoint 10 10; mkPoint 244 244; mkPoint 478 478; mkPoint 0 0]]) None [].

End MoreSamples.

(** * Proofs *)

Module ReaderProofs.

Ltac same_rbuf :=
  match goal with
  | |- mkRbuf (skipn ?a ?c) ?p = mkRbuf (skipn ?b ?c) ?q =>
      replace a with b by lia; replace p with q by lia;
      reflexivity
  end.

Lemma u16_at_cons2 (lo hi : Z) (t : list Z) (k : nat) :
  u16_at (lo :: hi :: t) (S (S k)) = u16_at t k.
Proof. reflexivity. Qed.

Lemma u16_at_skipn (r : list Z) (n k : nat) : u16_at (skipn n r) k = u16_at r (n + k).
Proof.
  unfold u16_at. rewrite !nth_skipn. now replace (n + S k)%nat with (S (n + k)) by lia.
Qed.

Lemma read_u16le_eq (r : list Z) (p : nat) :
  read_u16le (mkRbuf r p) =
  if Nat.leb 2 (List.length r) then Ok (u16_at r 0, mkRbuf (skipn 2 r) (p + 2)) else Throw RangeError.
Proof.
  destruct r as [|lo [|hi t]]; try reflexivity.
  simpl. replace (p + 2)%nat with (S (S p)) by lia. reflexivity.
Qed.

Lemma read_row_eq (w : nat) : forall (r : list Z) (p : nat),
  Cosmo.read_row w (mkRbuf r p) =
  if Nat.leb (2 * w) (List.length r)
  then Ok (map (fun j => Cosmo.tile_of_code (u16_at r (2 * j))) (seq 0 w),
           mkRbuf (skipn (2 * w) r) (p + 2 * w))
  else Throw RangeError.
Proof.
  induction w as [|k IH]; intros r p.
  - simpl. now rewrite Nat.add_0_r.
  - replace (2 * S k)%nat with (S (S (2 * k))) by lia.
    destruct r as [|lo [|hi t]]; try reflexivity.
    cbn [Cosmo.read_row]. unfold rd_bind, rd_ret. cbn [res_bind read_u16le rest pos].
    rewrite IH. cbn [List.length Nat.leb].
    destruct (Nat.leb (2 * k) (List.length t)); [|reflexivity].
    cbn [res_bind]. f_equal. f_equal. 2: f_equal; lia.
    cbn [seq map]. f_equal.
    rewrite <- (seq_shift k 0), map_map. apply map_ext. intros j.
    now replace (2 * S j)%nat with (S (S (2 * j))) by lia.
Qed.

Lemma read_rows_eq (w h : nat) : forall (r : list Z) (p : nat),
  Cosmo.read_rows h w (mkRbuf r p) =
  if Nat.leb (2 * (h * w)) (List.length r)
  then Ok (map (fun y => map (fun x => Cosmo.tile_of_code (u16_at r (2 * (y * w + x))))
                             (seq 0 w)) (seq 0 h),
           mkRbuf (skipn (2 * (h * w)) r) (p + 2 * (h * w)))
  else Throw RangeError.
Proof.
  induction h as [|k IH]; intros r p.
  - simpl. now rewrite Nat.add_0_r.
  - cbn [Cosmo.read_rows]. unfold rd_bind at 1. rewrite read_row_eq.
    destruct (Nat.leb (2 * w) (List.length r)) eqn:Ew.
    + cbn [res_bind]. unfold rd_bind, rd_ret. rewrite IH. rewrite length_skipn.
      apply Nat.leb_le in Ew.
      replace (Nat.leb (2 * (k * w)) (List.length r - 2 * w))
        with (Nat.leb (2 * (S k * w)) (List.length r)).
      2:{ destruct (Nat.leb (2 * (S k * w)) (List.length r)) eqn:E1;
          destruct (Nat.leb (2 * (k * w)) (List.length r - 2 * w)) eqn:E2; try reflexivity;
          [apply Nat.leb_le in E1; apply Nat.leb_gt in E2
          |apply Nat.leb_gt in E1; apply Nat.leb_le in E2]; nia. }
      destruct (Nat.leb (2 * (S k * w)) (List.length r)); [|reflexivity].
      cbn [res_bind]. f_equal. f_equal.
      * cbn [seq map]. f_equal.
        rewrite <- (seq_shift k 0), map_map. apply map_ext. intros y. apply map_ext. intros x.
        rewrite u16_at_skipn. f_equal. f_equal. nia.
      * rewrite skipn_skipn. f_equal; [f_equal; nia | nia].
    + cbn [res_bind]. apply Nat.leb_gt in Ew.
      replace (Nat.leb (2 * (S k * w)) (List.length r)) with false; [reflexivity|].
      symmetry. apply Nat.leb_gt. nia.
Qed.

Lemma read_header_eq (r : list Z) (p : nat) :
  Cosmo.read_header (mkRbuf r p) =
  if Nat.leb 6 (List.length r)
  then Ok (Cosmo.mkHeader (u16_at r 0) (u16_at r 2) (u16_at r 4),
           mkRbuf (skipn 6 r) (p + 6))
  else Throw RangeError.
Proof.
  do 6 (destruct r as [|? r]; [reflexivity|]).
  simpl. replace (p + 6)%nat with (S (S (S (S (S (S p)))))) by lia. reflexivity.
Qed.

Lemma read_actors_eq (n : nat) : forall (r : list Z) (p : nat),
  Cosmo.read_actors n (mkRbuf r p) =
  if Nat.leb (6 * n) (List.length r)
  then Ok (map (fun j => mkItem (u16_at r (6 * j)) (u16_at r (6 * j + 2)) (u16_at r (6 * j + 4)))
               (seq 0 n),
           mkRbuf (skipn (6 * n) r) (p + 6 * n))
  else Throw RangeError.
Proof.
  induction n as [|k IH]; intros r p.
  - simpl. now rewrite Nat.add_0_r.
  - replace (6 * S k)%nat with (S (S (S (S (S (S (6 * k))))))) by lia.
    do 6 (destruct r as [|? r]; [reflexivity|]).
    cbn [Cosmo.read_actors]. unfold rd_bind, rd_ret. cbn [res_bind read_u16le rest pos].
    rewrite IH. cbn [List.length Nat.leb].
    destruct (Nat.leb (6 * k) (List.length r)); [|reflexivity].
    cbn [res_bind]. f_equal. f_equal. 2: f_equal; lia.
    cbn [seq map]. f_equal.
    rewrite <- (seq_shift k 0), map_map. apply map_ext. intros j.
    replace (6 * S j)%nat with (S (S (S (S (S (S (6 * j))))))) by lia.
    reflexivity.
Qed.

(** The exact outcome of a successful [Map_Cosmo.parse] run. *)
Lemma parse_run_ok (content : list Z) (m : map2d) (b : rbuf) :
  Cosmo.parse_run content = Ok (m, b) <->
  let W := u16_at content 2 in
  let base := (6 + 6 * Cosmo.actor_iterations (u16_at content 4))%nat in
  let h := Z.to_nat (Cosmo.COSMO_BG_LEN / W) in
  (base <= List.length content)%nat /\ W <> 0 /\
  (base + 2 * (h * Z.to_nat W) <= List.length content)%nat /\ h <> 0%nat /\
  m = mkMap [Tiled (map (fun y => map (fun x =>
                      Cosmo.tile_of_code (u16_at (skipn base content) (2 * (y * Z.to_nat W + x))))
                      (seq 0 (Z.to_nat W))) (seq 0 h))] None None
            (Cosmo.parse_attributes (Cosmo.decode_flags (u16_at content 0))) /\
  b = mkRbuf (skipn (base + 2 * (h * Z.to_nat W)) content) (base + 2 * (h * Z.to_nat W)).
Proof.
  cbv zeta.
  unfold Cosmo.parse_run, Cosmo.parse_body, rd_bind.
  rewrite read_header_eq.
  destruct (Nat.leb 6 (List.length content)) eqn:E6.
  2:{ split; [discriminate|]. intros (Hb & _). apply Nat.leb_gt in E6. lia. }
  apply Nat.leb_le in E6. cbn [res_bind Cosmo.lenActorChunk Cosmo.mapWidth Cosmo.flags].
  rewrite read_actors_eq, length_skipn.
  destruct (Nat.leb (6 * Cosmo.actor_iterations (u16_at content 4)) (List.length content - 6)) eqn:EA.
  2:{ split; [discriminate|]. intros (Hb & _). apply Nat.leb_gt in EA. lia. }
  apply Nat.leb_le in EA. cbn [res_bind].
  destruct (u16_at content 2 =? 0) eqn:EW.
  { split; [discriminate|]. intros (_ & HW & _). apply Z.eqb_eq in EW. contradiction. }
  apply Z.eqb_neq in EW.
  rewrite read_rows_eq, !length_skipn, !skipn_skipn.
  replace (6 * Cosmo.actor_iterations (u16_at content 4) + 6)%nat
    with (6 + 6 * Cosmo.actor_iterations (u16_at content 4))%nat by lia.
  set (base := (6 + 6 * Cosmo.actor_iterations (u16_at content 4))%nat) in *.
  set (Wn := Z.to_nat (u16_at content 2)).
  destruct (Nat.leb (2 * (Z.to_nat (Cosmo.COSMO_BG_LEN / u16_at content 2) * Wn))
              (List.length content - 6 - 6 * Cosmo.actor_iterations (u16_at content 4))) eqn:ER.
  2:{ split; [discriminate|]. intros (_ & _ & Hl & _). apply Nat.leb_gt in ER.
      unfold base in Hl. lia. }
  apply Nat.leb_le in ER. cbn [res_bind].
  unfold Cosmo.new_Map2D_Cosmo.
  destruct (Z.to_nat (Cosmo.COSMO_BG_LEN / u16_at content 2)) as [|h'] eqn:Eh.
  - cbn [seq map res_bind]. split; [discriminate|]. intros (_ & _ & _ & H0 & _). now contradiction H0.
  - cbn [seq map res_bind]. split.
    + intros Hok. injection Hok as <- <-.
      split; [unfold base; lia|]. split; [exact EW|]. split; [unfold base; lia|].
      split; [discriminate|]. split; [reflexivity|].
      same_rbuf.
    + intros (_ & _ & _ & _ & -> & ->). do 2 f_equal. same_rbuf.
Qed.

End ReaderProofs.


Module DDaveProofs.

Lemma parse_bg_shape (mapW mapH offset : nat) (content : list Z) :
  List.length (DDave.parse_bg mapW mapH offset content) = mapH /\
  Forall (fun row => List.length row = mapW) (DDave.parse_bg mapW mapH offset content) /\
  (forall y x, (y < mapH)%nat -> (x < mapW)%nat ->
     cell (DDave.parse_bg mapW mapH offset content) y x
     = Some (Some (inject_Z (nth (offset + y * mapW + x) content 0)))).
Proof.
  unfold DDave.parse_bg. split; [|split].
  - now rewrite length_map, length_seq.
  - apply Forall_forall. intros row Hrow. apply in_map_iff in Hrow.
    destruct Hrow as [y [<- _]]. now rewrite length_map, length_seq.
  - intros y x Hy Hx. unfold cell.
    rewrite nth_error_map, nth_error_seq.
    replace (Nat.ltb y mapH) with true by (symmetry; now apply Nat.ltb_lt).
    simpl. rewrite nth_error_map, nth_error_seq.
    replace (Nat.ltb x mapW) with true by (symmetry; now apply Nat.ltb_lt).
    reflexivity.
Qed.

Lemma read_u16_at_ok (e : list Z) (k : nat) :
  (k + 2 <= List.length e)%nat -> exists v, DDave.read_u16_at e k = Ok v.
Proof.
  intros H. unfold DDave.read_u16_at.
  replace (Nat.leb (k + 2) (List.length e)) with true by (symmetry; now apply Nat.leb_le).
  eauto.
Qed.

Lemma parse_enemies_ok (enemy : option (list Z)) :
  match enemy with Some e => (40 <= List.length e)%nat | None => True end ->
  exists ens, DDave.parse_enemies enemy = Ok ens.
Proof.
  destruct enemy as [e|]; [|intros _; exists []; reflexivity].
  intros Hlen. unfold DDave.parse_enemies.
  assert (Hen : forall i, (i < 4)%nat -> exists en, DDave.read_enemy e i = Ok en).
  { intros i Hi. unfold DDave.read_enemy.
    destruct (read_u16_at_ok e (2 * i)) as [a Ha]; [lia|]. rewrite Ha. cbn [res_bind].
    destruct (read_u16_at_ok e (2 * i + 8)) as [b Hb]; [lia|]. rewrite Hb. cbn [res_bind].
    destruct (read_u16_at_ok e (2 * i + 16)) as [c Hc]; [lia|]. rewrite Hc. cbn [res_bind].
    destruct (read_u16_at_ok e (2 * i + 24)) as [d Hd]; [lia|]. rewrite Hd. cbn [res_bind].
    destruct (read_u16_at_ok e (2 * i + 32)) as [f Hf]; [lia|]. rewrite Hf. cbn [res_bind].
    eauto. }
  assert (Hall : forall is, (forall i, In i is -> (i < 4)%nat) ->
            exists ens, DDave.read_enemies e is = Ok ens).
  { induction is as [|i is IH]; intros Hin; simpl; [eauto|].
    destruct (Hen i) as [en Hen']; [apply Hin; now left|]. rewrite Hen'. simpl.
    destruct IH as [ens Hens]; [intros j Hj; apply Hin; now right|].
    rewrite Hens. simpl. eauto. }
  apply Hall. intros i Hi. apply in_seq in Hi. lia.
Qed.

(** C6: a 70-byte buffer parses to a 10 x 7 grid read from offset 0; a
    1280-byte buffer parses to a 100 x 10 grid read after the 256-byte path
    region; any other length throws ["Unrecognised map size: <n>."] and no map
    is returned.  (Enemy buffers long enough for the four enemy records; no
    player start option, whose layer class is not declared.) *)
Theorem ddave_parse_sizes :
  (forall content enemy opts,
     List.length content = 70%nat ->
     match enemy with Some e => (40 <= List.length e)%nat | None => True end ->
     DDave.playerStartX opts = None ->
     exists m g rest, DDave.parse content enemy opts = Ok m /\
       layers m = Tiled g :: rest /\
       List.length g = 7%nat /\ Forall (fun row => List.length row = 10%nat) g /\
       (forall y x, (y < 7)%nat -> (x < 10)%nat ->
          cell g y x = Some (Some (inject_Z (nth (y * 10 + x) content 0))))) /\
  (forall content enemy opts,
     List.length content = 1280%nat ->
     match enemy with Some e => (40 <= List.length e)%nat | None => True end ->
     DDave.playerStartX opts = None ->
     exists m g rest, DDave.parse content enemy opts = Ok m /\
       layers m = Tiled g :: rest /\
       List.length g = 10%nat /\ Forall (fun row => List.length row = 100%nat) g /\
       (forall y x, (y < 10)%nat -> (x < 100)%nat ->
          cell g y x = Some (Some (inject_Z (nth (256 + y * 100 + x) content 0))))) /\
  (forall content enemy opts,
     List.length content <> 70%nat -> List.length content <> 1280%nat ->
     DDave.parse content enemy opts
     = Throw (JsError ("Unrecognised map size: "
                       ++ string_of_Z (Z.of_nat (List.length content)) ++ ".")%string)).
Proof.
  split; [|split].
  - intros content enemy opts Hlen Hen Hpl.
    destruct (parse_enemies_ok enemy Hen) as [ens Hens].
    destruct (parse_bg_shape 10 7 0 content) as (H1 & H2 & H3).
    unfold DDave.parse. rewrite Hlen. simpl (Z.of_nat 70 =? 10 * 7). cbn beta iota.
    rewrite Hens. simpl res_bind. unfold DDave.new_Map2D_DDave. rewrite Hpl.
    do 3 eexists. split; [reflexivity|]. split; [reflexivity|].
    split; [exact H1|]. split; [exact H2|]. exact H3.
  - intros content enemy opts Hlen Hen Hpl.
    destruct (parse_enemies_ok enemy Hen) as [ens Hens].
    destruct (parse_bg_shape 100 10 256 content) as (H1 & H2 & H3).
    unfold DDave.parse. rewrite Hlen. simpl (Z.of_nat 1280 =? 10 * 7).
    simpl (Z.of_nat 1280 =? 1280). cbn beta iota.
    rewrite Hens. simpl res_bind. unfold DDave.new_Map2D_DDave. rewrite Hpl.
    do 3 eexists. split; [reflexivity|]. split; [reflexivity|].
    split; [exact H1|]. split; [exact H2|]. exact H3.
  - intros content enemy opts H70 H1280. unfold DDave.parse.
    replace (Z.of_nat (List.length content) =? 10 * 7) with false
      by (symmetry; apply Z.eqb_neq; lia).
    replace (Z.of_nat (List.length content) =? 1280) with false
      by (symmetry; apply Z.eqb_neq; lia).
    reflexivity.
Qed.

End DDaveProofs.

Module CosmoProofs.

(** A map returned by [parse] holds the background layer only, and no
    [mapSize]. *)
Lemma parse_run_shape (content : list Z) (m : map2d) (b : rbuf) :
  Cosmo.parse_run content = Ok (m, b) ->
  exists g, layers m = [Tiled g] /\ mapSize m = None /\ g <> [].
Proof.
  unfold Cosmo.parse_run, Cosmo.parse_body, rd_bind.
  destruct (Cosmo.read_header _) as [[hd b1]| |]; cbn [res_bind]; try discriminate.
  destruct (Cosmo.read_actors _ b1) as [[actors b2]| |]; cbn [res_bind]; try discriminate.
  destruct (Cosmo.mapWidth hd =? 0); try discriminate.
  destruct (Cosmo.read_rows _ _ b2) as [[g b3]| |]; cbn [res_bind]; try discriminate.
  unfold Cosmo.new_Map2D_Cosmo. destruct g as [|row g']; cbn [res_bind]; try discriminate.
  intros H. inversion H; subst. exists (row :: g'). repeat split. discriminate.
Qed.

Lemma parse_shape (content : list Z) (m : map2d) :
  Cosmo.parse content = Ok m ->
  exists g, layers m = [Tiled g] /\ mapSize m = None /\ g <> [].
Proof.
  unfold Cosmo.parse. destruct (Cosmo.parse_run content) as [[m' b]| |] eqn:E;
    cbn [res_bind]; try discriminate.
  intros H. inversion H; subst. eapply parse_run_shape; eauto.
Qed.

End CosmoProofs.

Module GenProofs.

Lemma u16_at_app (l1 l2 : list Z) (k : nat) :
  u16_at (l1 ++ l2) (List.length l1 + k) = u16_at l2 k.
Proof.
  unfold u16_at. rewrite app_nth2_plus.
  replace (S (List.length l1 + k)) with (List.length l1 + S k)%nat by lia.
  now rewrite app_nth2_plus.
Qed.

Lemma u16_at_u16le_bytes (v : Z) (t : list Z) :
  u16_at (Cosmo.u16le_bytes v ++ t) 0 = v mod 65536.
Proof.
  unfold u16_at, Cosmo.u16le_bytes. cbn [app nth].
  pose proof (Z.div_mod (v mod 65536) 256 ltac:(discriminate)). lia.
Qed.

Lemma length_actor_bytes (items : list item) :
  List.length (flat_map Cosmo.actor_bytes items) = (6 * List.length items)%nat.
Proof.
  induction items as [|a t IH]; [reflexivity|].
  cbn [flat_map]. rewrite length_app, IH. cbn [List.length]. unfold Cosmo.actor_bytes.
  cbn. lia.
Qed.

Lemma length_zrange (s : Z) (n : nat) : List.length (Cosmo.zrange s n) = n.
Proof. revert s. induction n; intros s; simpl; auto. Qed.

Lemma nth_zrange (n : nat) : forall (s : Z) (k : nat),
  (k < n)%nat -> nth k (Cosmo.zrange s n) 0 = s + Z.of_nat k.
Proof.
  induction n as [|n IH]; intros s k Hk; [lia|].
  destruct k as [|k]; cbn [Cosmo.zrange nth]; [lia|].
  rewrite IH by lia. lia.
Qed.

(** The two bytes written at loop index [k] are the value of [gen_tile] at
    the [k]-th counter value. *)
Lemma gen_tiles_nth (tc : list (list tile)) (mx : Z) (is : list Z) : forall out,
  Cosmo.gen_tiles tc mx is = Ok out ->
  forall k, (k < List.length is)%nat ->
  exists v, Cosmo.gen_tile tc mx (nth k is 0) = Ok v /\ u16_at out (2 * k) = v mod 65536.
Proof.
  induction is as [|i is' IH]; intros out H k Hk; [cbn in Hk; lia|].
  cbn [Cosmo.gen_tiles] in H.
  destruct (Cosmo.gen_tile tc mx i) as [v| |] eqn:Ev; cbn [res_bind] in H; try discriminate.
  destruct (Cosmo.gen_tiles tc mx is') as [vs| |] eqn:Evs; cbn [res_bind] in H;
    try discriminate.
  injection H as <-.
  destruct k as [|k].
  - exists v. split; [exact Ev|]. apply u16_at_u16le_bytes.
  - cbn [List.length] in Hk. destruct (IH vs eq_refl k) as (v' & Hv' & Hu); [lia|].
    exists v'. split; [exact Hv'|].
    replace (2 * S k)%nat with (S (S (2 * k))) by lia.
    exact Hu.
Qed.

(** Where [generate] puts the tile words: after the 6-byte header and the
    6-byte actor records. *)
Lemma generate_tile_word (m : map2d) (out : list Z) (tc : list (list tile))
    (items : list item) (mx my i : Z) :
  Cosmo.generate m = Ok out ->
  nth_error (layers m) 0 = Some (Tiled tc) ->
  nth_error (layers m) 1 = Some (Listed items) ->
  mapSize m = Some (mx, my) ->
  0 <= i < Cosmo.COSMO_BG_LEN ->
  exists v, Cosmo.gen_tile tc mx i = Ok v /\
    u16_at out (6 + 6 * List.length items + 2 * Z.to_nat i) = v mod 65536.
Proof.
  intros Hg H0 H1 Hs Hi. unfold Cosmo.generate in Hg.
  rewrite H1, H0, Hs in Hg. cbn [Cosmo.layer_items Cosmo.layer_tiles res_bind] in Hg.
  destruct (attr_value m "bgmusic") as [a1| |]; cbn [res_bind] in Hg; try discriminate.
  destruct (attr_value m "animation") as [a2| |]; cbn [res_bind] in Hg; try discriminate.
  destruct (attr_value m "bgScrollY") as [a3| |]; cbn [res_bind] in Hg; try discriminate.
  destruct (attr_value m "bgScrollX") as [a4| |]; cbn [res_bind] in Hg; try discriminate.
  destruct (attr_value m "rain") as [a5| |]; cbn [res_bind] in Hg; try discriminate.
  destruct (attr_value m "backdrop") as [a6| |]; cbn [res_bind] in Hg; try discriminate.
  destruct (Cosmo.gen_tiles tc mx (Cosmo.zrange 0 (Z.to_nat Cosmo.COSMO_BG_LEN)))
    as [tb| |] eqn:Etb; cbn [res_bind] in Hg; try discriminate.
  injection Hg as <-.
  destruct (gen_tiles_nth _ _ _ _ Etb (Z.to_nat i)) as (v & Hv & Hu).
  { rewrite length_zrange. unfold Cosmo.COSMO_BG_LEN in *. lia. }
  rewrite nth_zrange in Hv by (unfold Cosmo.COSMO_BG_LEN in *; lia).
  replace (0 + Z.of_nat (Z.to_nat i)) with i in Hv by lia.
  exists v. split; [exact Hv|]. rewrite <- Hu.
  replace (6 + 6 * List.length items + 2 * Z.to_nat i)%nat
    with (S (S (S (S (S (S (List.length (flat_map Cosmo.actor_bytes items) + 2 * Z.to_nat i)))))))
    by (rewrite length_actor_bytes; lia).
  rewrite !ReaderProofs.u16_at_cons2. apply u16_at_app.
Qed.

End GenProofs.

Module RoundTrip.

(** C1: round-trip identity fails for both handlers.  [Map_Cosmo.generate]
    reads [map.layers[1].items], and a map returned by [Map_Cosmo.parse] has
    one layer, so it throws on every map [parse] returns;
    [Map_DDave.generate] throws on every map, its first statement naming the
    undeclared [DD_FILESIZE]. *)
Theorem generate_after_parse_throws :
  (forall content m, Cosmo.parse content = Ok m -> Cosmo.generate m = Throw TypeError) /\
  (forall content m, DDave.parse content None DDave.default_options = Ok m ->
     DDave.generate m = Throw (ReferenceError "DD_FILESIZE")).
Proof.
  split.
  - intros content m Hp.
    destruct (CosmoProofs.parse_shape content m Hp) as [g [Hl _]].
    unfold Cosmo.generate. rewrite Hl. reflexivity.
  - intros; reflexivity.
Qed.

Lemma generate_after_parse_throws_witness :
  (match Cosmo.parse (Samples.cosmo_file 32764 32764) return Prop with
  | Ok m => Cosmo.generate m = Throw TypeError
  | _ => False
  end) /\
  (match DDave.parse (Samples.zeros 70) None DDave.default_options return Prop with
  | Ok m => DDave.generate m = Throw (ReferenceError "DD_FILESIZE")
  | _ => False
  end).
Proof.
  split.
  - assert (Hok : res_is_ok (Cosmo.parse (Samples.cosmo_file 32764 32764)) = true)
      by (vm_compute; reflexivity).
    destruct (Cosmo.parse (Samples.cosmo_file 32764 32764)) as [m| |] eqn:E;
      [|discriminate|discriminate].
    exact (proj1 generate_after_parse_throws _ m E).
  - assert (Hok : res_is_ok (DDave.parse (Samples.zeros 70) None DDave.default_options) = true)
      by (vm_compute; reflexivity).
    destruct (DDave.parse (Samples.zeros 70) None DDave.default_options) as [m| |] eqn:E;
      [|discriminate|discriminate].
    exact (proj2 generate_after_parse_throws _ m E).
Defined.

End RoundTrip.

Module FlagProofs.

(** C3: encoding music=5, animation=3, bgScrollX=true, bgScrollY=false,
    rain=true, backdrop=17 into the header flags word and decoding it gives
    back these six values, both on the word itself and through a whole
    [Map_Cosmo.generate] followed by [Map_Cosmo.parse]. *)
Theorem cosmo_flags_example_roundtrip :
  Cosmo.decode_flags
    (Cosmo.encode_flags (VNum 5) (VNum 3) (VBool false) (VBool true) (VBool true) (VNum 17))
  = Cosmo.mkFlags 5 3 false true true 17 /\
  (out <-- Cosmo.generate
             (Samples.cosmo_writable_map (Samples.cosmo_attrs 5 3 true false true 17)) ;;
   m' <-- Cosmo.parse out ;;
   Ok (attributes m'))
  = Ok (Cosmo.parse_attributes (Cosmo.mkFlags 5 3 false true true 17)).
Proof.
  split; vm_compute; reflexivity.
Qed.

End FlagProofs.

Module ResizeProofs.

(** C9: [Map2D.queryResize] evaluates to [undefined] for every proposed size
    and limits, so [Map2D.resize] throws for every size, the current one
    included: reading [permitted.x] in its comparison throws a TypeError. *)
Theorem map2d_resize_always_throws :
  forall (lim : Map2D.limits) (newSize : Map2D.size),
    Map2D.queryResize lim newSize = None /\
    Map2D.resize lim newSize = Throw TypeError.
Proof.
  intros lim newSize. split; reflexivity.
Qed.

End ResizeProofs.

Module SuppsProofs.

(** C10: neither shipped handler overrides [supps], which returns [null] for
    every name and content; yet [Map_DDave.parse] reads the [enemy]
    supplementary buffer when it is given (an enabled enemy becomes an item
    of the monster layer). *)
Theorem supps_null_for_shipped_handlers :
  (forall name content,
     supps Map_Cosmo name content = Ok None /\ supps Map_DDave name content = Ok None) /\
  (m <-- DDave.parse (Samples.zeros 70) (Some Samples.enemy_one) DDave.default_options ;;
   Ok (nth_error (layers m) 1)) = Ok (Some (Listed [mkItem 0 100 34])) /\
  (m <-- DDave.parse (Samples.zeros 70) None DDave.default_options ;;
   Ok (nth_error (layers m) 1)) = Ok (Some (Listed [])).
Proof.
  split; [|split; vm_compute; reflexivity].
  intros name content. split; reflexivity.
Qed.

End SuppsProofs.

Module HeapProofs.

(** [push] on the array just allocated at the end of the heap. *)
Lemma update_nth_fresh {A} (f : A -> A) (H : list A) (l : A) :
  update_nth (List.length H) f (H ++ [l]) = H ++ [f l].
Proof. induction H as [|x t IH]; cbn; [reflexivity|]. now rewrite IH. Qed.

Lemma when_push_fresh (b : bool) (v : string) (m : map2d) (H : list (list string)) (l : list string) :
  when b (push (List.length H) v) (mkCState m (H ++ [l])) =
  (Ok tt, mkCState m (H ++ [if b then (l ++ [v])%list else l])).
Proof. destruct b; cbn; [unfold push; cbn; now rewrite update_nth_fresh|reflexivity]. Qed.

Lemma cm_bind_step {A B} (c : cm A) (k : A -> cm B) (s s' : cstate) (a : A) :
  c s = (Ok a, s') -> cm_bind c k s = k a s'.
Proof. unfold cm_bind. now intros ->. Qed.

Lemma cm_bind_stop {A B} (c : cm A) (k : A -> cm B) (s s' : cstate) (r : res B) :
  c s = (match r with Ok _ => Loops | Throw e => Throw e | Loops => Loops end, s') ->
  (forall b, r <> Ok b) ->
  cm_bind c k s = (r, s').
Proof.
  unfold cm_bind. intros -> Hr. destruct r as [b|e|]; [now destruct (Hr b)|reflexivity|reflexivity].
Qed.

Lemma path_loop_fresh (m : map2d) (pts : list point) : forall idx last l,
  exists l', forall H,
    ddave_path_loop (List.length H) pts idx last (mkCState m (H ++ [l])) = (Ok tt, mkCState m (H ++ [l'])).
Proof.
  induction pts as [|pt t IH]; intros idx last l.
  - exists l. reflexivity.
  - destruct last as [lp|].
    + set (b := (ptx pt - ptx lp =? DDave.DD_PATH_END) && (pty pt - pty lp =? DDave.DD_PATH_END)).
      destruct (IH (S idx) (Some pt) (if b then (l ++ [ddave_msg_sentinel idx pt])%list else l)) as (l' & Hl').
      exists l'. intros H. cbn [ddave_path_loop].
      rewrite (cm_bind_step _ _ _ _ _ (when_push_fresh b _ m H l)). apply Hl'.
    + destruct (IH (S idx) (Some pt) l) as (l' & Hl').
      exists l'. intros H. cbn [ddave_path_loop]. apply Hl'.
Qed.

(** Every handler's [checkLimits] allocates one array and writes only to it:
    the map and the arrays already on the heap are left as they were, and the
    outcome does not depend on the heap. *)
Lemma checkLimits_fresh (h : handler) (m : map2d) :
  exists (o : res observed) (L : list string), forall H,
    snd (checkLimits h (mkCState m H)) = mkCState m (H ++ [L]) /\
    observe (checkLimits h (mkCState m H)) = o.
Proof.
  assert (Ha : forall H, alloc_array (mkCState m H) = (Ok (List.length H), mkCState m (H ++ [[]])))
    by reflexivity.
  destruct h.
  - eexists; eexists; intros H. cbn [checkLimits]. unfold base_checkLimits.
    rewrite (cm_bind_step _ _ _ _ _ (Ha H)). cbn. split; [reflexivity|].
    rewrite nth_middle. reflexivity.
  - unfold checkLimits, cosmo_checkLimits, base_checkLimits.
    destruct (Cosmo.layer_items (nth_error (layers m) 1)) as [items|e|] eqn:Ei.
    + destruct (count_actors items (0, 0, 0)) as [[pl pf] li] eqn:Ec.
      eexists; eexists; intros H.
      rewrite (cm_bind_step _ _ _ _ _ (Ha H)). cbv beta.
      rewrite (cm_bind_step _ _ _ _ _ (eq_refl : get_map (mkCState m (H ++ [[]])) = (Ok m, _))).
      cbv beta. unfold cm_lift. rewrite cm_bind_step with (a := items) (s' := mkCState m (H ++ [[]])) by (now rewrite Ei).
      cbv beta. rewrite (cm_bind_step _ _ _ _ _ (when_push_fresh _ _ m H _)). cbv beta.
      rewrite Ec.
      rewrite (cm_bind_step _ _ _ _ _ (when_push_fresh _ _ m H _)). cbv beta.
      rewrite (cm_bind_step _ _ _ _ _ (when_push_fresh _ _ m H _)). cbv beta.
      rewrite (cm_bind_step _ _ _ _ _ (when_push_fresh _ _ m H _)). cbv beta.
      unfold cm_ret. cbn [snd observe res_bind]. split; [reflexivity|].
      cbn [st_heap]. rewrite nth_middle. reflexivity.
    + exists (Throw e), []. intros H.
      rewrite (cm_bind_step _ _ _ _ _ (Ha H)). cbv beta.
      rewrite (cm_bind_step _ _ _ _ _ (eq_refl : get_map (mkCState m (H ++ [[]])) = (Ok m, _))).
      cbv beta. unfold cm_lift. rewrite Ei.
      rewrite (cm_bind_stop _ _ _ _ (Throw e) eq_refl) by discriminate. split; reflexivity.
    + exists Loops, []. intros H.
      rewrite (cm_bind_step _ _ _ _ _ (Ha H)). cbv beta.
      rewrite (cm_bind_step _ _ _ _ _ (eq_refl : get_map (mkCState m (H ++ [[]])) = (Ok m, _))).
      cbv beta. unfold cm_lift. rewrite Ei.
      rewrite (cm_bind_stop _ _ _ _ Loops eq_refl) by discriminate. split; reflexivity.
  - unfold checkLimits, ddave_checkLimits, base_checkLimits.
    destruct (paths m) as [[|p0 ps]|] eqn:Ep.
    + exists (Ok NoValue), []. intros H.
      rewrite (cm_bind_step _ _ _ _ _ (Ha H)). cbv beta.
      rewrite (cm_bind_step _ _ _ _ _ (eq_refl : get_map (mkCState m (H ++ [[]])) = (Ok m, _))).
      cbv beta. rewrite Ep. split; reflexivity.
    + destruct (Z.of_nat (List.length p0) >? DDave.DD_MAX_PATH) eqn:El.
      * exists (Throw TypeError), []. intros H.
        rewrite (cm_bind_step _ _ _ _ _ (Ha H)). cbv beta.
        rewrite (cm_bind_step _ _ _ _ _ (eq_refl : get_map (mkCState m (H ++ [[]])) = (Ok m, _))).
        cbv beta. rewrite Ep, El. split; reflexivity.
      * destruct (path_loop_fresh m p0 0 None []) as (l' & Hl').
        exists (Ok NoValue), l'. intros H.
        rewrite (cm_bind_step _ _ _ _ _ (Ha H)). cbv beta.
        rewrite (cm_bind_step _ _ _ _ _ (eq_refl : get_map (mkCState m (H ++ [[]])) = (Ok m, _))).
        cbv beta. rewrite Ep, El.
        rewrite (cm_bind_step _ _ _ _ _ (Hl' H)). split; reflexivity.
    + exists (Ok NoValue), []. intros H.
      rewrite (cm_bind_step _ _ _ _ _ (Ha H)). cbv beta.
      rewrite (cm_bind_step _ _ _ _ _ (eq_refl : get_map (mkCState m (H ++ [[]])) = (Ok m, _))).
      cbv beta. rewrite Ep. split; reflexivity.
Qed.

End HeapProofs.

Module LimitProofs.

(** C4: [Map_DDave.checkLimits] never returns an issue array: it returns
    [undefined] (the function has no [return]) or throws a TypeError. *)
Theorem ddave_checkLimits_no_array :
  forall s : cstate,
    fst (checkLimits Map_DDave s) = Ok RetUndefined \/
    fst (checkLimits Map_DDave s) = Throw TypeError.
Proof.
  intros [m H]. unfold checkLimits, ddave_checkLimits, cm_bind, base_checkLimits,
    alloc_array, get_map. cbn [st_map st_heap].
  destruct (paths m) as [[|p0 ps]|]; [left; reflexivity| |left; reflexivity].
  destruct (Z.of_nat (List.length p0) >? DDave.DD_MAX_PATH).
  - right. reflexivity.
  - left. destruct (HeapProofs.path_loop_fresh m p0 0 None []) as (l' & Hl').
    now rewrite (Hl' H).
Qed.

(** C5: on a path whose second point lies (0xEA, 0xEA) from the first,
    [Map_DDave.checkLimits] builds the issue array holding the message for
    point #2 but returns [undefined], and [Map_DDave.generate] throws. *)
Theorem ddave_sentinel_issue_dropped :
  let m := mkMap [] (Some [[mkPoint 0 0; mkPoint 234 234]]) None [] in
  checkLimits Map_DDave (mkCState m [])
  = (Ok RetUndefined, mkCState m [[ddave_msg_sentinel 1 (mkPoint 234 234)]]) /\
  DDave.generate m = Throw (ReferenceError "DD_FILESIZE").
Proof.
  split; reflexivity.
Qed.

End LimitProofs.

Module DDaveWitness.

Lemma ddave_parse_sizes_witness :
  (exists m g rest, DDave.parse (Samples.zeros 70) None DDave.default_options = Ok m /\
     layers m = Tiled g :: rest /\
     List.length g = 7%nat /\ Forall (fun row => List.length row = 10%nat) g /\
     (forall y x, (y < 7)%nat -> (x < 10)%nat ->
        cell g y x = Some (Some (inject_Z (nth (y * 10 + x) (Samples.zeros 70) 0))))) /\
  (exists m g rest, DDave.parse (Samples.zeros 1280) (Some Samples.enemy_one)
                      DDave.default_options = Ok m /\
     layers m = Tiled g :: rest /\
     List.length g = 10%nat /\ Forall (fun row => List.length row = 100%nat) g /\
     (forall y x, (y < 10)%nat -> (x < 100)%nat ->
        cell g y x = Some (Some (inject_Z (nth (256 + y * 100 + x) (Samples.zeros 1280) 0))))) /\
  DDave.parse (Samples.zeros 71) None DDave.default_options
  = Throw (JsError ("Unrecognised map size: "
                    ++ string_of_Z (Z.of_nat (List.length (Samples.zeros 71))) ++ ".")%string).
Proof.
  split; [|split].
  - apply (proj1 DDaveProofs.ddave_parse_sizes); [vm_compute; reflexivity | exact I | reflexivity].
  - apply (proj1 (proj2 DDaveProofs.ddave_parse_sizes));
      [vm_compute; reflexivity | vm_compute; lia | reflexivity].
  - apply (proj2 (proj2 DDaveProofs.ddave_parse_sizes)); vm_compute; discriminate.
Defined.

End DDaveWitness.

Module SizeProofs.

(** C7 (corrected): with a header [mapWidth] of 256, [Map_Cosmo.parse] builds a
    background grid of 127 rows of 256 cells, but it reads only 127 * 256 =
    32512 tile codes after the actor block, not 32764: the row loop stops at
    [mapH = floor(32764 / 256)] full rows, so the last 252 words of the
    background block are never read. *)
Theorem cosmo_width256_grid (content : list Z) :
  u16_at content 2 = 256 ->
  (6 + 6 * Cosmo.actor_iterations (u16_at content 4) + 2 * (127 * 256)
     <= List.length content)%nat ->
  exists g b,
    Cosmo.parse_run content =
      Ok (mkMap [Tiled g] None None
                (Cosmo.parse_attributes (Cosmo.decode_flags (u16_at content 0))), b) /\
    List.length g = 127%nat /\ Forall (fun row => List.length row = 256%nat) g /\
    pos b = (6 + 6 * Cosmo.actor_iterations (u16_at content 4) + 2 * (127 * 256))%nat.
Proof.
  intros HW Hl.
  assert (Eh : Z.to_nat (Cosmo.COSMO_BG_LEN / 256) = 127%nat) by reflexivity.
  assert (Ew : Z.to_nat 256 = 256%nat) by reflexivity.
  exists (map (fun y => map (fun x =>
            Cosmo.tile_of_code (u16_at (skipn (6 + 6 * Cosmo.actor_iterations (u16_at content 4))
                                          content) (2 * (y * 256 + x))))
            (seq 0 256)) (seq 0 127)).
  exists (mkRbuf (skipn (6 + 6 * Cosmo.actor_iterations (u16_at content 4) + 2 * (127 * 256))
                   content)
                 (6 + 6 * Cosmo.actor_iterations (u16_at content 4) + 2 * (127 * 256))).
  split; [|split; [|split]].
  - apply ReaderProofs.parse_run_ok. cbv zeta. rewrite HW, Eh, Ew.
    split; [lia|]. split; [discriminate|]. split; [lia|]. split; [discriminate|].
    split; reflexivity.
  - now rewrite length_map, length_seq.
  - apply Forall_forall. intros row Hin. apply in_map_iff in Hin.
    destruct Hin as (y & <- & _). now rewrite length_map, length_seq.
  - reflexivity.
Qed.

(** C7 counterexample: a file with [mapWidth] 256, no actors and 32764 tile
    words parses, and the reader stops at byte 6 + 2 * 32512 = 65030 instead of
    6 + 2 * 32764 = 65534, leaving 504 bytes unread. *)
Lemma cosmo_width256_reads_32512_codes :
  match Cosmo.parse_run (Samples.cosmo_file 256 32764) with
  | Ok (_, b) => N.of_nat (pos b) = 65030%N /\ N.of_nat (pos b) <> (6 + 2 * 32764)%N /\
                 N.of_nat (List.length (rest b)) = 504%N
  | _ => False
  end.
Proof. vm_compute. split; [reflexivity|]. split; [discriminate|reflexivity]. Qed.

End SizeProofs.

Module SizeWitness.

Lemma cosmo_width256_grid_witness :
  u16_at (Samples.cosmo_file 256 32764) 2 = 256 /\
  exists g b,
    Cosmo.parse_run (Samples.cosmo_file 256 32764) =
      Ok (mkMap [Tiled g] None None
                (Cosmo.parse_attributes (Cosmo.decode_flags
                   (u16_at (Samples.cosmo_file 256 32764) 0))), b) /\
    List.length g = 127%nat /\ Forall (fun row => List.length row = 256%nat) g /\
    pos b = (6 + 6 * Cosmo.actor_iterations (u16_at (Samples.cosmo_file 256 32764) 4)
             + 2 * (127 * 256))%nat.
Proof.
  split; [vm_compute; reflexivity|].
  apply (SizeProofs.cosmo_width256_grid (Samples.cosmo_file 256 32764)).
  - vm_compute. reflexivity.
  - apply Nat.leb_le. vm_compute. reflexivity.
Defined.

End SizeWitness.

Module TileCodeProofs.

(** C2: the tile codes of map-cosmo.  [parse] stores at row [y], column [x]
    of the background layer the decoding of the u16 word at byte
    [6 + 6 * actors + 2 * (y * mapWidth + x)]; the decoding sends 0 to
    [undefined] (no tile) and only 0 there, a non-zero [c] with
    [floor(c / 8) <= 2000] to [floor(c / 8)], and a larger one to the masked
    variant [2000 + (floor(c / 8) - 2000) / 5].  On the writing side, whenever
    [generate] succeeds, a cell holding [undefined] is written as the word 0 at
    its place after the header and the actor records. *)
Theorem cosmo_tile_code_mapping :
  (forall content m b, Cosmo.parse_run content = Ok (m, b) ->
     exists g, layers m = [Tiled g] /\
       forall y x, (y < List.length g)%nat -> (x < Z.to_nat (u16_at content 2))%nat ->
         cell g y x =
           Some (Cosmo.tile_of_code
                   (u16_at content (6 + 6 * Cosmo.actor_iterations (u16_at content 4)
                                    + 2 * (y * Z.to_nat (u16_at content 2) + x))))) /\
  (forall c, Cosmo.tile_of_code c = None <-> c = 0) /\
  (forall c, c <> 0 -> c / 8 <= 2000 -> Cosmo.tile_of_code c = Some (inject_Z (c / 8))) /\
  (forall c, c <> 0 -> 2000 < c / 8 ->
     Cosmo.tile_of_code c = Some (inject_Z 2000 + inject_Z (c / 8 - 2000) / inject_Z 5)%Q) /\
  (forall m out tc items mx my i row,
     Cosmo.generate m = Ok out ->
     nth_error (layers m) 0 = Some (Tiled tc) ->
     nth_error (layers m) 1 = Some (Listed items) ->
     mapSize m = Some (mx, my) -> 0 <= i < Cosmo.COSMO_BG_LEN ->
     js_index tc (i / mx) = Some row -> js_index row (Z.rem i mx) = Some None ->
     u16_at out (6 + 6 * List.length items + 2 * Z.to_nat i) = 0).
Proof.
  split; [|split; [|split; [|split]]].
  - intros content m b H.
    apply ReaderProofs.parse_run_ok in H. cbv zeta in H.
    destruct H as (Hb & HW & Hl & Hh & -> & _).
    eexists; split; [reflexivity|].
    intros y x Hy Hx. rewrite length_map, length_seq in Hy.
    unfold cell. rewrite nth_error_map, nth_error_seq.
    destruct (Nat.ltb_spec y (Z.to_nat (Cosmo.COSMO_BG_LEN / u16_at content 2))); [|lia].
    cbn [option_map Nat.add]. rewrite nth_error_map, nth_error_seq.
    destruct (Nat.ltb_spec x (Z.to_nat (u16_at content 2))); [|lia].
    cbn [option_map Nat.add]. now rewrite ReaderProofs.u16_at_skipn.
  - intros c. unfold Cosmo.tile_of_code.
    destruct (Z.eqb_spec c 0) as [->|Hc]; [split; reflexivity|].
    split; [|intros; contradiction].
    destruct (_ >? _); discriminate.
  - intros c Hc Hle. unfold Cosmo.tile_of_code.
    destruct (Z.eqb_spec c 0); [contradiction|].
    rewrite Z.gtb_ltb. destruct (Z.ltb_spec 2000 (c / 8)); [lia|reflexivity].
  - intros c Hc Hgt. unfold Cosmo.tile_of_code.
    destruct (Z.eqb_spec c 0); [contradiction|].
    rewrite Z.gtb_ltb. destruct (Z.ltb_spec 2000 (c / 8)); [reflexivity|lia].
  - intros m out tc items mx my i row Hg H0 H1 Hs Hi Hrow Hcell.
    destruct (GenProofs.generate_tile_word m out tc items mx my i Hg H0 H1 Hs Hi)
      as (v & Hv & ->).
    unfold Cosmo.gen_tile in Hv. cbv zeta in Hv.
    destruct (mx =? 0); [discriminate|].
    rewrite Hrow, Hcell in Hv. injection Hv as <-. reflexivity.
Qed.

(** The writing side applies: [generate] accepts [Samples.cosmo_writable_map],
    whose only cell is [undefined], and writes 0 at word index 0 of the tile
    block. *)
Lemma cosmo_writable_map_first_tile_zero :
  match Cosmo.generate (Samples.cosmo_writable_map (Samples.cosmo_attrs 5 3 true false true 17)) with
  | Ok out => u16_at out 6 = 0
  | _ => False
  end.
Proof. vm_compute. reflexivity. Qed.

End TileCodeProofs.

Module FrameProofs.

(** C8: for every handler, map and heap, a call of [checkLimits] leaves the
    map as it was and the arrays already on the heap as they were (it only
    adds the array it allocates), and a second call on the resulting state
    gives the same outcome as the first: the same issue list, or the same
    [undefined] or exception for [Map_DDave]. *)
Theorem checkLimits_pure_idempotent :
  forall (h : handler) (m : map2d) (H : list (list string)),
    let s1 := snd (checkLimits h (mkCState m H)) in
    st_map s1 = m /\
    firstn (List.length H) (st_heap s1) = H /\
    observe (checkLimits h s1) = observe (checkLimits h (mkCState m H)).
Proof.
  intros h m H. cbv zeta.
  destruct (HeapProofs.checkLimits_fresh h m) as (o & L & HL).
  destruct (HL H) as (E1 & O1). rewrite E1, O1. cbn [st_map st_heap].
  split; [reflexivity|]. split.
  - rewrite firstn_app, Nat.sub_diag, firstn_all. apply app_nil_r.
  - now destruct (HL (H ++ [L])) as (_ & ->).
Qed.

End FrameProofs.

Module FlagFacts.

Lemma cflags_eqb_eq f g : FlagBox.cflags_eqb f g = true -> f = g.
Proof.
  destruct f, g; unfold FlagBox.cflags_eqb; cbn.
  rewrite !andb_true_iff, !Z.eqb_eq. intros (((((-> & ->) & ?) & ?) & ?) & ->).
  apply eqb_prop in H, H0, H1. now subst.
Qed.

Lemma flags_box_ok_true : FlagBox.flags_box_ok = true.
Proof. vm_compute. reflexivity. Qed.


Lemma in_zrange (n : nat) : forall s a, In a (Cosmo.zrange s n) <-> s <= a < s + Z.of_nat n.
Proof.
  induction n as [|n IH]; intros s a; cbn [Cosmo.zrange In]; [lia|].
  rewrite IH. lia.
Qed.

Lemma land_ones_bound (a : Z) (k : Z) : 0 <= k -> 0 <= Z.land a (Z.ones k) < 2 ^ k.
Proof. intros Hk. rewrite Z.land_ones by exact Hk. apply Z.mod_pos_bound. lia. Qed.

Lemma land_idem (a m : Z) : Z.land (Z.land a m) m = Z.land a m.
Proof. now rewrite <- Z.land_assoc, Z.land_diag. Qed.

(** [decode_flags] after [encode_flags]: each field masked to its width, and
    the truthiness of each boolean field. *)
Lemma decode_encode_flags :
  forall vmus vani vsy vsx vrain vback : attrval,
    Cosmo.decode_flags (Cosmo.encode_flags vmus vani vsy vsx vrain vback) =
    Cosmo.mkFlags (Z.land (Cosmo.js_int vmus) 31) (Z.land (Cosmo.js_int vani) 7)
                  (Cosmo.js_truthy vsy) (Cosmo.js_truthy vsx) (Cosmo.js_truthy vrain)
                  (Z.land (Cosmo.js_int vback) 31).
Proof.
  intros.
  assert (Ha : In (Z.land (Cosmo.js_int vmus) 31) (Cosmo.zrange 0 32)).
  { apply in_zrange. exact (land_ones_bound (Cosmo.js_int vmus) 5 ltac:(lia)). }
  assert (Hbb : In (Z.land (Cosmo.js_int vani) 7) (Cosmo.zrange 0 8)).
  { apply in_zrange. exact (land_ones_bound (Cosmo.js_int vani) 3 ltac:(lia)). }
  assert (Hd : In (Z.land (Cosmo.js_int vback) 31) (Cosmo.zrange 0 32)).
  { apply in_zrange. exact (land_ones_bound (Cosmo.js_int vback) 5 ltac:(lia)). }
  assert (E : Cosmo.encode_flags vmus vani vsy vsx vrain vback =
              Cosmo.encode_flags (VNum (Z.land (Cosmo.js_int vmus) 31))
                (VNum (Z.land (Cosmo.js_int vani) 7)) (VBool (Cosmo.js_truthy vsy))
                (VBool (Cosmo.js_truthy vsx)) (VBool (Cosmo.js_truthy vrain))
                (VNum (Z.land (Cosmo.js_int vback) 31))).
  { unfold Cosmo.encode_flags. cbn [Cosmo.js_int Cosmo.js_truthy]. now rewrite !land_idem. }
  rewrite E. apply cflags_eqb_eq.
  assert (Hbool : forall x : bool, In x [true; false]) by (intros []; cbn; auto).
  pose proof flags_box_ok_true as Hb. unfold FlagBox.flags_box_ok in Hb.
  rewrite forallb_forall in Hb. specialize (Hb _ Ha).
  rewrite forallb_forall in Hb. specialize (Hb _ Hbb).
  rewrite forallb_forall in Hb. specialize (Hb _ Hd).
  rewrite forallb_forall in Hb. specialize (Hb _ (Hbool (Cosmo.js_truthy vsy))).
  rewrite forallb_forall in Hb. specialize (Hb _ (Hbool (Cosmo.js_truthy vsx))).
  rewrite forallb_forall in Hb. specialize (Hb _ (Hbool (Cosmo.js_truthy vrain))).
  exact Hb.
Qed.

End FlagFacts.

Module CosmoLimitFacts.

(** The counting loop of [Map_Cosmo.checkLimits] adds the number of items in
    each code class. *)
Lemma count_actors_filter (items : list item) : forall pl pf li,
  count_actors items (pl, pf, li) =
  (pl + Views.count_where (fun c => c =? 0) items,
   pf + Views.count_where (fun c => (1 <=? c) && (c <=? 5)) items,
   li + Views.count_where (fun c => (6 <=? c) && (c <=? 8)) items).
Proof.
  unfold Views.count_where.
  induction items as [|a t IH]; intros pl pf li; cbn [count_actors filter List.length].
  - apply f_equal2; [apply f_equal2|]; lia.
  - destruct (Z.eqb_spec (icode a) 0); destruct (Z.leb_spec 1 (icode a));
      destruct (Z.leb_spec (icode a) 5); destruct (Z.leb_spec 6 (icode a));
      destruct (Z.leb_spec (icode a) 8); cbn [andb]; rewrite IH; cbn [List.length];
      (apply f_equal2; [apply f_equal2|]); lia.
Qed.

End CosmoLimitFacts.

Module GenFacts.

Lemma lor_range (a b : Z) : 0 <= a < 65536 -> 0 <= b < 65536 -> 0 <= Z.lor a b < 65536.
Proof.
  intros Ha Hb. split; [apply Z.lor_nonneg; lia|].
  destruct (Z.eq_dec a 0) as [->|Ha0]; [rewrite Z.lor_0_l; lia|].
  destruct (Z.eq_dec b 0) as [->|Hb0]; [rewrite Z.lor_0_r; lia|].
  change 65536 with (2 ^ 16).
  apply Z.log2_lt_pow2; [pose proof (Z.lor_nonneg a b); assert (Z.lor a b <> 0) by (rewrite Z.lor_eq_0_iff; lia); lia|].
  rewrite Z.log2_lor by lia.
  apply Z.max_lub_lt; apply Z.log2_lt_pow2; lia.
Qed.

Lemma encode_flags_range (v1 v2 v3 v4 v5 v6 : attrval) :
  0 <= Cosmo.encode_flags v1 v2 v3 v4 v5 v6 < 65536.
Proof.
  unfold Cosmo.encode_flags.
  pose proof (FlagFacts.land_ones_bound (Cosmo.js_int v1) 5 ltac:(lia)).
  pose proof (FlagFacts.land_ones_bound (Cosmo.js_int v2) 3 ltac:(lia)).
  pose proof (FlagFacts.land_ones_bound (Cosmo.js_int v6) 5 ltac:(lia)).
  change (Z.ones 5) with 31 in *. change (Z.ones 3) with 7 in *.
  repeat apply lor_range; rewrite ?Z.shiftl_mul_pow2 by lia;
    try (destruct (Cosmo.js_truthy _)); cbn [Z.pow Z.pow_pos Pos.iter]; lia.
Qed.

Lemma js_index_neg {A} (l : list A) (i : Z) : i < 0 -> js_index l i = None.
Proof.
  destruct l as [|a t]; intros Hi; cbn; [reflexivity|].
  replace (i =? 0) with false by (symmetry; apply Z.eqb_neq; lia).
  replace (i <? 0) with true by (symmetry; apply Z.ltb_lt; lia). reflexivity.
Qed.

Lemma js_index_nth {A} (l : list A) : forall i, 0 <= i -> js_index l i = nth_error l (Z.to_nat i).
Proof.
  induction l as [|a t IH]; intros i Hi; cbn [js_index].
  - destruct (Z.to_nat i); reflexivity.
  - destruct (Z.eqb_spec i 0) as [->|Hne]; [reflexivity|].
    replace (i <? 0) with false by (symmetry; apply Z.ltb_ge; lia).
    rewrite IH by lia. replace (Z.to_nat i) with (S (Z.to_nat (i - 1))) by lia. reflexivity.
Qed.

Lemma gen_tiles_length (tc : list (list tile)) (mx : Z) (is : list Z) : forall out,
  Cosmo.gen_tiles tc mx is = Ok out -> List.length out = (2 * List.length is)%nat.
Proof.
  induction is as [|i is' IH]; intros out H; cbn [Cosmo.gen_tiles] in H.
  - injection H as <-. reflexivity.
  - destruct (Cosmo.gen_tile tc mx i) as [v| |]; cbn [res_bind] in H; try discriminate.
    destruct (Cosmo.gen_tiles tc mx is') as [vs| |] eqn:Evs; cbn [res_bind] in H; try discriminate.
    injection H as Hout. subst out. cbn [List.length]. rewrite (IH vs eq_refl). lia.
Qed.

(** Inversion of a successful [generate]. *)
Lemma generate_ok_inv (m : map2d) (out : list Z) :
  Cosmo.generate m = Ok out ->
  exists tc items mx my vmus vani vsy vsx vrain vback tb,
    nth_error (layers m) 0 = Some (Tiled tc) /\
    nth_error (layers m) 1 = Some (Listed items) /\
    mapSize m = Some (mx, my) /\
    attr_value m "bgmusic" = Ok vmus /\ attr_value m "animation" = Ok vani /\
    attr_value m "bgScrollY" = Ok vsy /\ attr_value m "bgScrollX" = Ok vsx /\
    attr_value m "rain" = Ok vrain /\ attr_value m "backdrop" = Ok vback /\
    Cosmo.gen_tiles tc mx (Cosmo.zrange 0 (Z.to_nat Cosmo.COSMO_BG_LEN)) = Ok tb /\
    out = (Cosmo.u16le_bytes (Cosmo.encode_flags vmus vani vsy vsx vrain vback)
           ++ Cosmo.u16le_bytes mx
           ++ Cosmo.u16le_bytes (Z.of_nat (List.length items) * Cosmo.ACTOR_LEN_UINT16)
           ++ flat_map Cosmo.actor_bytes items ++ tb)%list.
Proof.
  intros Hg. unfold Cosmo.generate in Hg.
  destruct (nth_error (layers m) 1) as [[tc1|items]|] eqn:E1; cbn [Cosmo.layer_items res_bind] in Hg;
    try discriminate.
  destruct (mapSize m) as [[mx my]|] eqn:Es; cbn [res_bind] in Hg; try discriminate.
  destruct (attr_value m "bgmusic") as [a1| |] eqn:A1; cbn [res_bind] in Hg; try discriminate.
  destruct (attr_value m "animation") as [a2| |] eqn:A2; cbn [res_bind] in Hg; try discriminate.
  destruct (attr_value m "bgScrollY") as [a3| |] eqn:A3; cbn [res_bind] in Hg; try discriminate.
  destruct (attr_value m "bgScrollX") as [a4| |] eqn:A4; cbn [res_bind] in Hg; try discriminate.
  destruct (attr_value m "rain") as [a5| |] eqn:A5; cbn [res_bind] in Hg; try discriminate.
  destruct (attr_value m "backdrop") as [a6| |] eqn:A6; cbn [res_bind] in Hg; try discriminate.
  destruct (nth_error (layers m) 0) as [[tc|items0]|] eqn:E0; cbn [Cosmo.layer_tiles res_bind] in Hg;
    try discriminate.
  destruct (Cosmo.gen_tiles tc mx (Cosmo.zrange 0 (Z.to_nat Cosmo.COSMO_BG_LEN)))
    as [tb| |] eqn:Etb; cbn [res_bind] in Hg; try discriminate.
  injection Hg as <-.
  exists tc, items, mx, my, a1, a2, a3, a4, a5, a6, tb. repeat split; assumption || reflexivity.
Qed.

Lemma generate_layout_facts (m : map2d) (out : list Z) :
  Cosmo.generate m = Ok out ->
  exists tc items mx my vmus vani vsy vsx vrain vback,
    nth_error (layers m) 0 = Some (Tiled tc) /\
    nth_error (layers m) 1 = Some (Listed items) /\
    mapSize m = Some (mx, my) /\
    attr_value m "bgmusic" = Ok vmus /\ attr_value m "animation" = Ok vani /\
    attr_value m "bgScrollY" = Ok vsy /\ attr_value m "bgScrollX" = Ok vsx /\
    attr_value m "rain" = Ok vrain /\ attr_value m "backdrop" = Ok vback /\
    0 < mx /\ (Z.to_nat ((Cosmo.COSMO_BG_LEN - 1) / mx) < List.length tc)%nat /\
    List.length out = (6 + 6 * List.length items + 2 * Z.to_nat Cosmo.COSMO_BG_LEN)%nat /\
    u16_at out 0 = Cosmo.encode_flags vmus vani vsy vsx vrain vback /\
    u16_at out 2 = mx mod 65536 /\
    u16_at out 4 = (3 * Z.of_nat (List.length items)) mod 65536 /\
    firstn (6 * List.length items) (skipn 6 out) = flat_map Cosmo.actor_bytes items.
Proof.
  intros Hg.
  destruct (generate_ok_inv m out Hg)
    as (tc & items & mx & my & v1 & v2 & v3 & v4 & v5 & v6 & tb & H0 & H1 & Hs & A1 & A2 & A3 & A4
        & A5 & A6 & Etb & ->).
  exists tc, items, mx, my, v1, v2, v3, v4, v5, v6.
  do 9 (split; [assumption|]).
  assert (Ht : forall i, 0 <= i < Cosmo.COSMO_BG_LEN -> exists v, Cosmo.gen_tile tc mx i = Ok v).
  { intros i Hi. destruct (GenProofs.gen_tiles_nth _ _ _ _ Etb (Z.to_nat i)) as (v & Hv & _).
    { rewrite GenProofs.length_zrange. unfold Cosmo.COSMO_BG_LEN in *. lia. }
    rewrite GenProofs.nth_zrange in Hv by (unfold Cosmo.COSMO_BG_LEN in *; lia).
    replace (0 + Z.of_nat (Z.to_nat i)) with i in Hv by lia. eauto. }
  assert (Hpos : 0 < mx).
  { destruct (Ht 1) as [v Hv]; [unfold Cosmo.COSMO_BG_LEN; lia|].
    unfold Cosmo.gen_tile in Hv.
    destruct (Z.eqb_spec mx 0); [discriminate|].
    destruct (Z.lt_ge_cases 0 mx) as [Hp|Hn]; [exact Hp|].
    rewrite js_index_neg in Hv; [discriminate|].
    pose proof (Z.div_mod 1 mx ltac:(lia)). pose proof (Z.mod_neg_bound 1 mx ltac:(lia)). nia. }
  assert (Hrows : (Z.to_nat ((Cosmo.COSMO_BG_LEN - 1) / mx) < List.length tc)%nat).
  { destruct (Ht (Cosmo.COSMO_BG_LEN - 1)) as [v Hv]; [unfold Cosmo.COSMO_BG_LEN; lia|].
    unfold Cosmo.gen_tile in Hv.
    replace (mx =? 0) with false in Hv by (symmetry; apply Z.eqb_neq; lia).
    rewrite js_index_nth in Hv by (apply Z.div_pos; unfold Cosmo.COSMO_BG_LEN; lia).
    destruct (nth_error tc _) eqn:En; [|discriminate].
    apply nth_error_Some. congruence. }
  split; [exact Hpos|]. split; [exact Hrows|].
  split.
  { rewrite !length_app, GenProofs.length_actor_bytes, (gen_tiles_length _ _ _ _ Etb),
      GenProofs.length_zrange. cbn [List.length Cosmo.u16le_bytes]. lia. }
  split.
  { rewrite GenProofs.u16_at_u16le_bytes. apply Z.mod_small, encode_flags_range. }
  split.
  { change 2%nat with (List.length (Cosmo.u16le_bytes (Cosmo.encode_flags v1 v2 v3 v4 v5 v6)) + 0)%nat.
    rewrite GenProofs.u16_at_app. apply GenProofs.u16_at_u16le_bytes. }
  split.
  { change 4%nat with (List.length (Cosmo.u16le_bytes (Cosmo.encode_flags v1 v2 v3 v4 v5 v6))
                       + (List.length (Cosmo.u16le_bytes mx) + 0))%nat.
    rewrite !GenProofs.u16_at_app, GenProofs.u16_at_u16le_bytes. unfold Cosmo.ACTOR_LEN_UINT16. f_equal. lia. }
  cbn [Cosmo.u16le_bytes app skipn].
  rewrite <- GenProofs.length_actor_bytes, firstn_app, Nat.sub_diag, firstn_all.
  apply app_nil_r.
Qed.

Lemma skipn_length_app {A} (l1 l2 : list A) : skipn (List.length l1) (l1 ++ l2) = l2.
Proof. induction l1; cbn; auto. Qed.

Lemma cell_grid (f : nat -> nat -> tile) (w h y x : nat) :
  (y < h)%nat -> (x < w)%nat ->
  cell (map (fun y => map (fun x => f y x) (seq 0 w)) (seq 0 h)) y x = Some (f y x).
Proof.
  intros Hy Hx. unfold cell.
  rewrite nth_error_map, nth_error_seq.
  replace (Nat.ltb y h) with true by (symmetry; now apply Nat.ltb_lt).
  cbn [option_map]. rewrite nth_error_map, nth_error_seq.
  replace (Nat.ltb x w) with true by (symmetry; now apply Nat.ltb_lt).
  reflexivity.
Qed.

End GenFacts.

Module DDaveFacts.

Lemma parse_enemies_some (e : list Z) :
  DDave.parse_enemies (Some e) =
  if Nat.leb 40 (List.length e) then Ok (map (Views.enemy_record e) (seq 0 4)) else Throw RangeError.
Proof.
  unfold DDave.parse_enemies, DDave.read_enemies, DDave.read_enemy, DDave.read_u16_at.
  cbn [seq Nat.mul Nat.add].
  destruct (Nat.leb 40 (List.length e)) eqn:E40.
  - apply Nat.leb_le in E40.
    repeat match goal with |- context [Nat.leb ?a (List.length e)] =>
      rewrite (proj2 (Nat.leb_le a (List.length e))) by lia end.
    reflexivity.
  - apply Nat.leb_gt in E40.
    repeat (match goal with |- context [Nat.leb ?a ?b] => destruct (Nat.leb a b) eqn:? end;
            cbn [res_bind]).
    all: try reflexivity.
    all: repeat match goal with H : Nat.leb _ _ = true |- _ => apply Nat.leb_le in H end.
    all: lia.
Qed.

Lemma flat_map_seq_shift {B} (f : nat -> list B) (s n : nat) :
  flat_map f (seq (S s) n) = flat_map (fun j => f (S j)) (seq s n).
Proof.
  rewrite <- seq_shift. induction (seq s n) as [|a t IH]; cbn; [reflexivity|]. now rewrite IH.
Qed.

Lemma path_loop_issues (m : map2d) (pts : list point) : forall lp idx l H,
  ddave_path_loop (List.length H) pts idx (Some lp) (mkCState m (H ++ [l])) =
  (Ok tt, mkCState m (H ++ [l ++ flat_map (fun j =>
      if Views.sentinel_step (nth j (lp :: pts) Views.origin) (nth j pts Views.origin)
      then [ddave_msg_sentinel (idx + j) (nth j pts Views.origin)] else []) (seq 0 (List.length pts))])).
Proof.
  induction pts as [|pt t IH]; intros lp idx l H.
  - cbn. now rewrite app_nil_r.
  - cbn [ddave_path_loop].
    rewrite (HeapProofs.cm_bind_step _ _ _ _ _ (HeapProofs.when_push_fresh _ _ m H l)).
    rewrite IH. do 3 f_equal.
    cbn [List.length seq flat_map nth]. rewrite flat_map_seq_shift.
    fold (Views.sentinel_step lp pt). rewrite Nat.add_0_r.
    assert (Ef : forall (f g : nat -> list string), (forall j, f j = g j) ->
      forall s, flat_map f s = flat_map g s).
    { intros f g Hfg s. now apply flat_map_ext. }
    apply (f_equal (fun x => [x])).
    destruct (Views.sentinel_step lp pt); cbn [app]; [rewrite <- app_assoc; cbn [app]|];
      apply (f_equal (app l)); [apply (f_equal (cons _))|];
      apply Ef; intros j; destruct (Views.sentinel_step _ _); try reflexivity;
      now replace (S idx + j)%nat with (idx + S j)%nat by lia.
Qed.

Lemma ddave_checkLimits_outcome (s : cstate) :
  fst (checkLimits Map_DDave s) = Ok RetUndefined \/
  fst (checkLimits Map_DDave s) = Throw TypeError.
Proof.
  destruct s as [m H]. unfold checkLimits, ddave_checkLimits, cm_bind, base_checkLimits,
    alloc_array, get_map. cbn [st_map st_heap].
  destruct (paths m) as [[|p0 ps]|]; [left; reflexivity| |left; reflexivity].
  destruct (Z.of_nat (List.length p0) >? DDave.DD_MAX_PATH).
  - right. reflexivity.
  - left. destruct (HeapProofs.path_loop_fresh m p0 0 None []) as (l' & Hl').
    now rewrite (Hl' H).
Qed.

End DDaveFacts.

Module Extras.

Import CosmoLimitFacts GenFacts DDaveFacts.

(** Decoding the flag word that [Map_Cosmo.generate] writes gives back every
    attribute masked to its field width (5 bits for [bgmusic] and [backdrop],
    3 bits for [animation]) and the truthiness of each boolean attribute. *)
Theorem flags_encode_decode :
  forall vmus vani vsy vsx vrain vback : attrval,
    Cosmo.decode_flags (Cosmo.encode_flags vmus vani vsy vsx vrain vback) =
    Cosmo.mkFlags (Z.land (Cosmo.js_int vmus) 31) (Z.land (Cosmo.js_int vani) 7)
                  (Cosmo.js_truthy vsy) (Cosmo.js_truthy vsx) (Cosmo.js_truthy vrain)
                  (Z.land (Cosmo.js_int vback) 31).
Proof. exact FlagFacts.decode_encode_flags. Qed.

(** How [Map_Cosmo.parse] fails: a file shorter than the header and the actor
    records throws a RangeError; a map width of 0 loops forever; a width above
    32764 gives no rows and throws a TypeError; otherwise a tile area shorter
    than [floor(32764 / width)] rows throws a RangeError. *)
Theorem cosmo_parse_failures (content : list Z) :
  let W := u16_at content 2 in
  let base := (6 + 6 * Cosmo.actor_iterations (u16_at content 4))%nat in
  ((List.length content < base)%nat -> Cosmo.parse content = Throw RangeError) /\
  ((base <= List.length content)%nat -> W = 0 -> Cosmo.parse content = Loops) /\
  ((base <= List.length content)%nat -> Cosmo.COSMO_BG_LEN < W ->
     Cosmo.parse content = Throw TypeError) /\
  ((base <= List.length content)%nat -> 0 < W <= Cosmo.COSMO_BG_LEN ->
     (List.length content < base + 2 * (Z.to_nat (Cosmo.COSMO_BG_LEN / W) * Z.to_nat W))%nat ->
     Cosmo.parse content = Throw RangeError).
Proof.
  cbv zeta.
  unfold Cosmo.parse, Cosmo.parse_run, Cosmo.parse_body, rd_bind.
  rewrite ReaderProofs.read_header_eq.
  destruct (Nat.leb 6 (List.length content)) eqn:E6.
  2:{ apply Nat.leb_gt in E6. split; [reflexivity|]. repeat split; intros; lia. }
  apply Nat.leb_le in E6. cbn [res_bind Cosmo.lenActorChunk Cosmo.mapWidth Cosmo.flags].
  rewrite ReaderProofs.read_actors_eq, length_skipn.
  destruct (Nat.leb (6 * Cosmo.actor_iterations (u16_at content 4)) (List.length content - 6)) eqn:EA.
  2:{ apply Nat.leb_gt in EA. split; [reflexivity|]. repeat split; intros; lia. }
  apply Nat.leb_le in EA. cbn [res_bind].
  split; [intros; lia|].
  destruct (u16_at content 2 =? 0) eqn:EW.
  { apply Z.eqb_eq in EW. rewrite EW. split; [reflexivity|]. unfold Cosmo.COSMO_BG_LEN.
    split; intros; lia. }
  apply Z.eqb_neq in EW. split; [intros _ H; contradiction|].
  rewrite ReaderProofs.read_rows_eq, !length_skipn.
  split.
  - intros _ HW. rewrite (Z.div_small Cosmo.COSMO_BG_LEN) by (unfold Cosmo.COSMO_BG_LEN in *; lia).
    cbn [Z.to_nat Nat.mul Nat.leb res_bind seq map]. reflexivity.
  - intros _ HW Hlen.
    replace (Nat.leb _ _) with false; [reflexivity|].
    symmetry. apply Nat.leb_gt. lia.
Qed.

Lemma cosmo_parse_failures_witness :
  Cosmo.parse (Samples.zeros 4) = Throw RangeError /\
  Cosmo.parse (Samples.zeros 6) = Loops /\
  Cosmo.parse (Samples.cosmo_file 1 1) = Throw RangeError.
Proof.
  destruct (cosmo_parse_failures (Samples.zeros 4)) as [A _].
  destruct (cosmo_parse_failures (Samples.zeros 6)) as [_ [B _]].
  destruct (cosmo_parse_failures (Samples.cosmo_file 1 1)) as [_ [_ [_ C]]].
  split; [apply A; apply Nat.ltb_lt; vm_compute; reflexivity|].
  split; [apply B; [apply Nat.leb_le; vm_compute; reflexivity|vm_compute; reflexivity]|].
  apply C; [apply Nat.leb_le; vm_compute; reflexivity
           |split; [apply Z.ltb_lt|apply Z.leb_le]; vm_compute; reflexivity
           |apply Nat.ltb_lt; vm_compute; reflexivity].
Defined.

(** On a map whose [layers[1]] is an item list, [Map_Cosmo.checkLimits]
    returns a new array holding, in order, the messages for more than 410
    actors, more than one player (code 0), more than 10 platforms (codes 1 to
    5) and more than 199 lights (codes 6 to 8); the array is empty exactly
    when all four counts are within their limits. *)
Theorem cosmo_checkLimits_issues (m : map2d) (items : list item) (H : list (list string)) :
  nth_error (layers m) 1 = Some (Listed items) ->
  let n := Z.of_nat (List.length items) in
  let pl := Views.count_where (fun c => c =? 0) items in
  let pf := Views.count_where (fun c => (1 <=? c) && (c <=? 5)) items in
  let li := Views.count_where (fun c => (6 <=? c) && (c <=? 8)) items in
  let issues :=
    ((if n >? Cosmo.MAX_ACTORS then [cosmo_msg_actors n] else [])
     ++ (if pl >? Cosmo.MAX_PLAYERS then [cosmo_msg_players pl] else [])
     ++ (if pf >? Cosmo.MAX_PLATFORMS then [cosmo_msg_platforms pf] else [])
     ++ (if li >? Cosmo.MAX_LIGHTS then [cosmo_msg_lights li] else []))%list in
  checkLimits Map_Cosmo (mkCState m H)
  = (Ok (RetArray (List.length H)), mkCState m (H ++ [issues])) /\
  (issues = [] <->
   n <= Cosmo.MAX_ACTORS /\ pl <= Cosmo.MAX_PLAYERS /\
   pf <= Cosmo.MAX_PLATFORMS /\ li <= Cosmo.MAX_LIGHTS).
Proof.
  intros Hl. cbv zeta. split.
  - unfold checkLimits, cosmo_checkLimits, base_checkLimits.
    rewrite (HeapProofs.cm_bind_step _ _ _ _ _ (eq_refl : alloc_array (mkCState m H) = (Ok (List.length H), mkCState m (H ++ [[]])))).
    cbv beta.
    rewrite (HeapProofs.cm_bind_step _ _ _ _ _ (eq_refl : get_map (mkCState m (H ++ [[]])) = (Ok m, _))).
    cbv beta. unfold cm_lift.
    rewrite HeapProofs.cm_bind_step with (a := items) (s' := mkCState m (H ++ [[]])) by (now rewrite Hl).
    cbv beta. rewrite (HeapProofs.cm_bind_step _ _ _ _ _ (HeapProofs.when_push_fresh _ _ m H _)). cbv beta.
    rewrite count_actors_filter. cbn [Z.add].
    rewrite (HeapProofs.cm_bind_step _ _ _ _ _ (HeapProofs.when_push_fresh _ _ m H _)). cbv beta.
    rewrite (HeapProofs.cm_bind_step _ _ _ _ _ (HeapProofs.when_push_fresh _ _ m H _)). cbv beta.
    rewrite (HeapProofs.cm_bind_step _ _ _ _ _ (HeapProofs.when_push_fresh _ _ m H _)). cbv beta.
    unfold cm_ret. do 3 f_equal.
    destruct (_ >? Cosmo.MAX_ACTORS), (_ >? Cosmo.MAX_PLAYERS), (_ >? Cosmo.MAX_PLATFORMS),
      (_ >? Cosmo.MAX_LIGHTS); reflexivity.
  - unfold Cosmo.MAX_ACTORS, Cosmo.MAX_PLAYERS, Cosmo.MAX_PLATFORMS, Cosmo.MAX_LIGHTS.
    destruct (Z.of_nat (List.length items) >? 410) eqn:E1,
      (Views.count_where (fun c => c =? 0) items >? 1) eqn:E2,
      (Views.count_where (fun c => (1 <=? c) && (c <=? 5)) items >? 10) eqn:E3,
      (Views.count_where (fun c => (6 <=? c) && (c <=? 8)) items >? 199) eqn:E4;
    rewrite ?Z.gtb_lt, ?Z.gtb_ltb, ?Z.ltb_lt, ?Z.ltb_ge in *; cbn [app];
    split; intros; try discriminate; try lia; try reflexivity.
Qed.

Lemma cosmo_checkLimits_issues_witness :
  nth_error (layers MoreSamples.actors_map) 1
    = Some (Listed [mkItem 0 0 0; mkItem 0 3 3; mkItem 7 1 1]) /\
  checkLimits Map_Cosmo (mkCState MoreSamples.actors_map []) =
  (Ok (RetArray 0), mkCState MoreSamples.actors_map [[cosmo_msg_players 2]]).
Proof.
  split; [reflexivity|].
  destruct (cosmo_checkLimits_issues MoreSamples.actors_map
              [mkItem 0 0 0; mkItem 0 3 3; mkItem 7 1 1] [] eq_refl) as [E _].
  rewrite E. reflexivity.
Defined.

(** [Map_Cosmo.checkLimits] on a map whose [layers[1]] is not an item list
    throws a TypeError, leaving its new empty issue array on the heap and the
    map unchanged. *)
Theorem cosmo_checkLimits_needs_actor_layer (m : map2d) (H : list (list string)) :
  (forall items, nth_error (layers m) 1 <> Some (Listed items)) ->
  checkLimits Map_Cosmo (mkCState m H) = (Throw TypeError, mkCState m (H ++ [[]])).
Proof.
  intros Hl. unfold checkLimits, cosmo_checkLimits, base_checkLimits.
  rewrite (HeapProofs.cm_bind_step _ _ _ _ _
    (eq_refl : alloc_array (mkCState m H) = (Ok (List.length H), mkCState m (H ++ [[]])))).
  cbv beta.
  rewrite (HeapProofs.cm_bind_step _ _ _ _ _
    (eq_refl : get_map (mkCState m (H ++ [[]])) = (Ok m, _))).
  cbv beta. unfold cm_lift.
  destruct (nth_error (layers m) 1) as [[tc|items]|] eqn:E;
    [reflexivity|exfalso; exact (Hl items eq_refl)|reflexivity].
Qed.

Lemma cosmo_checkLimits_needs_actor_layer_witness :
  (forall items, nth_error (layers MoreSamples.bg_only_map) 1 <> Some (Listed items)) /\
  checkLimits Map_Cosmo (mkCState MoreSamples.bg_only_map [])
  = (Throw TypeError, mkCState MoreSamples.bg_only_map [[]]).
Proof.
  assert (Hl : forall items, nth_error (layers MoreSamples.bg_only_map) 1 <> Some (Listed items))
    by (intros items Hi; discriminate Hi).
  split; [exact Hl|]. exact (cosmo_checkLimits_needs_actor_layer _ [] Hl).
Defined.

(** What a successful [Map_Cosmo.generate] requires and writes: [layers[0]]
    is a tile grid, [layers[1]] an item list, [mapSize.x] is positive and the
    grid has a row [floor(32763 / mapSize.x)]; the output is the 6-byte header
    (the flag word, [mapSize.x] and three times the actor count, as u16le),
    the 6-byte actor records, and 32764 tile words. *)
Theorem cosmo_generate_layout (m : map2d) (out : list Z) :
  Cosmo.generate m = Ok out ->
  exists tc items mx my vmus vani vsy vsx vrain vback,
    nth_error (layers m) 0 = Some (Tiled tc) /\
    nth_error (layers m) 1 = Some (Listed items) /\
    mapSize m = Some (mx, my) /\
    attr_value m "bgmusic" = Ok vmus /\ attr_value m "animation" = Ok vani /\
    attr_value m "bgScrollY" = Ok vsy /\ attr_value m "bgScrollX" = Ok vsx /\
    attr_value m "rain" = Ok vrain /\ attr_value m "backdrop" = Ok vback /\
    0 < mx /\ (Z.to_nat ((Cosmo.COSMO_BG_LEN - 1) / mx) < List.length tc)%nat /\
    List.length out = (6 + 6 * List.length items + 2 * Z.to_nat Cosmo.COSMO_BG_LEN)%nat /\
    u16_at out 0 = Cosmo.encode_flags vmus vani vsy vsx vrain vback /\
    u16_at out 2 = mx mod 65536 /\
    u16_at out 4 = (3 * Z.of_nat (List.length items)) mod 65536 /\
    firstn (6 * List.length items) (skipn 6 out) = flat_map Cosmo.actor_bytes items.
Proof. exact (generate_layout_facts m out). Qed.

Lemma cosmo_generate_layout_witness :
  match Cosmo.generate (Samples.cosmo_writable_map (Samples.cosmo_attrs 5 3 true false true 17))
        return Prop with
  | Ok out => N.of_nat (List.length out) = 65534%N /\ u16_at out 2 = 32764
  | _ => False
  end.
Proof.
  destruct (Cosmo.generate (Samples.cosmo_writable_map (Samples.cosmo_attrs 5 3 true false true 17)))
    as [out| |] eqn:E.
  - destruct (cosmo_generate_layout _ out E)
      as (tc & items & mx & my & v1 & v2 & v3 & v4 & v5 & v6 & H0 & H1 & Hs & _ & _ & _ & _ & _ & _
          & _ & _ & Hlen & _ & HW & _).
    cbn in H1, Hs. injection H1 as <-. injection Hs as <- <-.
    split; [rewrite Hlen; vm_compute; reflexivity|rewrite HW; reflexivity].
  - assert (Hk : match Cosmo.generate (Samples.cosmo_writable_map (Samples.cosmo_attrs 5 3 true false true 17)) with Ok _ => true | _ => false end = true)
      by (vm_compute; reflexivity).
    rewrite E in Hk. discriminate Hk.
  - assert (Hk : match Cosmo.generate (Samples.cosmo_writable_map (Samples.cosmo_attrs 5 3 true false true 17)) with Ok _ => true | _ => false end = true)
      by (vm_compute; reflexivity).
    rewrite E in Hk. discriminate Hk.
Defined.

(** Reading back what [Map_Cosmo.generate] wrote, for a map width up to 32764
    and fewer than 21846 actors: [Map_Cosmo.parse] succeeds with
    [floor(32764 / mapSize.x)] rows, the attributes masked as by the flag
    encoding, and at each cell the tile code [tile_of_code] makes of the word
    written there (the code, or 0 for a missing cell, modulo 65536; so a
    non-zero code [c] comes back as [floor(c / 8)]). *)
Theorem cosmo_generate_then_parse (m : map2d) (out : list Z) (tc : list (list tile))
    (items : list item) (mx my : Z) :
  Cosmo.generate m = Ok out ->
  nth_error (layers m) 0 = Some (Tiled tc) ->
  nth_error (layers m) 1 = Some (Listed items) ->
  mapSize m = Some (mx, my) ->
  mx <= Cosmo.COSMO_BG_LEN ->
  3 * Z.of_nat (List.length items) < 65536 ->
  exists g vmus vani vsy vsx vrain vback,
    attr_value m "bgmusic" = Ok vmus /\ attr_value m "animation" = Ok vani /\
    attr_value m "bgScrollY" = Ok vsy /\ attr_value m "bgScrollX" = Ok vsx /\
    attr_value m "rain" = Ok vrain /\ attr_value m "backdrop" = Ok vback /\
    Cosmo.parse out = Ok (mkMap [Tiled g] None None (Cosmo.parse_attributes
      (Cosmo.mkFlags (Z.land (Cosmo.js_int vmus) 31) (Z.land (Cosmo.js_int vani) 7)
         (Cosmo.js_truthy vsy) (Cosmo.js_truthy vsx) (Cosmo.js_truthy vrain)
         (Z.land (Cosmo.js_int vback) 31)))) /\
    List.length g = Z.to_nat (Cosmo.COSMO_BG_LEN / mx) /\
    (forall y x, (y < List.length g)%nat -> (x < Z.to_nat mx)%nat ->
       cell g y x = Some (Cosmo.tile_of_code
         (match cell tc y x with Some t => Cosmo.tile_value t | None => 0 end mod 65536))).
Proof.
  intros Hg H0 H1 Hs Hmx Hn.
  destruct (generate_ok_inv m out Hg)
    as (tc' & items' & mx' & my' & v1 & v2 & v3 & v4 & v5 & v6 & tb & H0' & H1' & Hs' & A1 & A2 & A3 & A4
        & A5 & A6 & Etb & Hout).
  rewrite H0 in H0'. injection H0' as <-. rewrite H1 in H1'. injection H1' as <-.
  rewrite Hs in Hs'. injection Hs' as <- <-.
  destruct (generate_layout_facts m out Hg)
    as (tc2 & items2 & mx2 & my2 & w1 & w2 & w3 & w4 & w5 & w6 & H02 & H12 & Hs2 & _ & _ & _ & _
        & _ & _ & Hpos & _ & Hlen & _ & HW & HL & _).
  rewrite H0 in H02. injection H02 as <-. rewrite H1 in H12. injection H12 as <-.
  rewrite Hs in Hs2. injection Hs2 as <- <-.
  set (n := List.length items) in *.
  assert (EW : u16_at out 2 = mx) by (rewrite HW; apply Z.mod_small; unfold Cosmo.COSMO_BG_LEN in *; lia).
  assert (EL : u16_at out 4 = 3 * Z.of_nat n) by (rewrite HL; apply Z.mod_small; lia).
  assert (EA : Cosmo.actor_iterations (u16_at out 4) = n).
  { unfold Cosmo.actor_iterations, Cosmo.ACTOR_LEN_UINT16. rewrite EL.
    replace (3 * Z.of_nat n + 2) with (2 + Z.of_nat n * 3) by lia.
    rewrite Z.div_add by lia. rewrite (Z.div_small 2 3) by lia. lia. }
  assert (Hh : 1 <= Cosmo.COSMO_BG_LEN / mx).
  { apply Z.div_le_lower_bound; lia. }
  assert (HhW : Cosmo.COSMO_BG_LEN / mx * mx <= Cosmo.COSMO_BG_LEN).
  { rewrite Z.mul_comm. apply Z.mul_div_le. lia. }
  assert (Hskip : skipn (6 + 6 * n) out = tb).
  { set (L := (Cosmo.u16le_bytes (Cosmo.encode_flags v1 v2 v3 v4 v5 v6)
        ++ Cosmo.u16le_bytes mx ++ Cosmo.u16le_bytes (Z.of_nat n * Cosmo.ACTOR_LEN_UINT16)
        ++ flat_map Cosmo.actor_bytes items)%list).
    assert (Eo : out = (L ++ tb)%list) by (rewrite Hout; unfold L; now rewrite <- !app_assoc).
    replace (6 + 6 * n)%nat with (List.length L).
    - rewrite Eo. apply skipn_length_app.
    - unfold L. rewrite !length_app, GenProofs.length_actor_bytes. reflexivity. }
  set (W := Z.to_nat mx). set (h := Z.to_nat (Cosmo.COSMO_BG_LEN / mx)).
  set (g := map (fun y => map (fun x =>
              Cosmo.tile_of_code (u16_at (skipn (6 + 6 * n) out) (2 * (y * W + x))))
              (seq 0 W)) (seq 0 h)).
  assert (E0 : Cosmo.decode_flags (u16_at out 0) =
    Cosmo.mkFlags (Z.land (Cosmo.js_int v1) 31) (Z.land (Cosmo.js_int v2) 7)
      (Cosmo.js_truthy v3) (Cosmo.js_truthy v4) (Cosmo.js_truthy v5) (Z.land (Cosmo.js_int v6) 31)).
  { rewrite Hout, GenProofs.u16_at_u16le_bytes, Z.mod_small by apply GenFacts.encode_flags_range.
    apply FlagFacts.decode_encode_flags. }
  exists g, v1, v2, v3, v4, v5, v6. do 6 (split; [assumption|]).
  assert (Hrun : Cosmo.parse_run out =
     Ok (mkMap [Tiled g] None None (Cosmo.parse_attributes (Cosmo.decode_flags (u16_at out 0))),
         mkRbuf (skipn (6 + 6 * n + 2 * (h * W)) out) (6 + 6 * n + 2 * (h * W)))).
  { apply ReaderProofs.parse_run_ok. cbv zeta. rewrite EW, EA.
    split; [lia|]. split; [lia|]. split.
    { rewrite Hlen. unfold h, W. unfold Cosmo.COSMO_BG_LEN in *.
      rewrite <- Z2Nat.inj_mul by lia. lia. }
    split; [unfold h; lia|]. split; reflexivity. }
  split; [unfold Cosmo.parse; rewrite Hrun, E0; reflexivity|].
  split; [unfold g; now rewrite length_map, length_seq|].
  intros y x Hy Hx.
  unfold g in Hy. rewrite length_map, length_seq in Hy.
  unfold g. rewrite cell_grid by assumption. f_equal. f_equal.
  rewrite Hskip.
  assert (Hk : (y * W + x < Z.to_nat Cosmo.COSMO_BG_LEN)%nat).
  { unfold h, W in *. unfold Cosmo.COSMO_BG_LEN in *. nia. }
  destruct (GenProofs.gen_tiles_nth _ _ _ _ Etb (y * W + x)) as (v & Hv & Hu);
    [rewrite GenProofs.length_zrange; exact Hk|].
  rewrite Hu. f_equal.
  rewrite GenProofs.nth_zrange in Hv by exact Hk.
  unfold Cosmo.gen_tile in Hv.
  replace (mx =? 0) with false in Hv by (symmetry; apply Z.eqb_neq; lia).
  assert (Ey : (0 + Z.of_nat (y * W + x)) / mx = Z.of_nat y).
  { unfold W in *. symmetry. apply Z.div_unique with (Z.of_nat x); [left|]; lia. }
  assert (Ex : Z.rem (0 + Z.of_nat (y * W + x)) mx = Z.of_nat x).
  { rewrite Z.rem_mod_nonneg by lia. unfold W in *. symmetry. apply Z.mod_unique with (Z.of_nat y); [left|]; lia. }
  rewrite Ey, Ex, !js_index_nth in Hv by lia. rewrite !Nat2Z.id in Hv.
  unfold cell. destruct (nth_error tc y) as [row|]; [|discriminate].
  cbv iota in Hv. rewrite js_index_nth, Nat2Z.id in Hv by lia.
  destruct (nth_error row x); congruence.
Qed.


Lemma cosmo_generate_then_parse_witness :
  match Cosmo.generate MoreSamples.cosmo_tile80_map return Prop with
  | Ok out => exists g, (exists a, Cosmo.parse out = Ok (mkMap [Tiled g] None None a)) /\
                        cell g 0 0 = Some (Some (inject_Z 10))
  | _ => False
  end.
Proof.
  destruct (Cosmo.generate MoreSamples.cosmo_tile80_map) as [out| |] eqn:E.
  - destruct (cosmo_generate_then_parse MoreSamples.cosmo_tile80_map out [[Some (inject_Z 80)]]
                [] 32764 1 E eq_refl eq_refl eq_refl ltac:(unfold Cosmo.COSMO_BG_LEN; lia)
                ltac:(cbn; lia))
      as (g & v1 & v2 & v3 & v4 & v5 & v6 & _ & _ & _ & _ & _ & _ & Hp & Hlen & Hcell).
    exists g. split; [eexists; exact Hp|].
    rewrite Hcell; [reflexivity| |].
    + rewrite Hlen. vm_compute. lia.
    + change (Z.to_nat 0 < Z.to_nat 32764)%nat. apply Z2Nat.inj_lt; lia.
  - assert (Hk : match Cosmo.generate MoreSamples.cosmo_tile80_map with Ok _ => true | _ => false end = true)
      by (vm_compute; reflexivity).
    rewrite E in Hk. discriminate Hk.
  - assert (Hk : match Cosmo.generate MoreSamples.cosmo_tile80_map with Ok _ => true | _ => false end = true)
      by (vm_compute; reflexivity).
    rewrite E in Hk. discriminate Hk.
Defined.

(** With an [enemy] buffer, [Map_DDave.parse] (no player start) throws a
    RangeError when the buffer is shorter than 40 bytes; otherwise its second
    layer holds one actor per enemy [i] (0 to 3) whose enable word is
    non-zero, with [code = i], [x] the u16 at [2i + 8] and [y] the u16 at
    [2i + 16] minus 16, and the map has no paths, size or attributes. *)
Theorem ddave_parse_enemy_layer (content e : list Z) (opts : DDave.options) :
  (List.length content = 70 \/ List.length content = 1280)%nat ->
  DDave.playerStartX opts = None ->
  ((List.length e < 40)%nat -> DDave.parse content (Some e) opts = Throw RangeError) /\
  ((40 <= List.length e)%nat ->
   exists g, DDave.parse content (Some e) opts =
     Ok (mkMap [Tiled g; Listed (map (Views.enemy_item e)
                                  (filter (fun i => negb (u16_at e (2 * i) =? 0)) (seq 0 4)))]
               None None [])).
Proof.
  intros Hlen Hpl.
  assert (Hsz : exists w h hp, (if Z.of_nat (List.length content) =? 10 * 7 then Ok (10%nat, 7%nat, false)
          else if Z.of_nat (List.length content) =? 1280 then Ok (100%nat, 10%nat, true)
          else Throw (JsError ("Unrecognised map size: " ++ string_of_Z (Z.of_nat (List.length content)) ++ ".")%string))
          = Ok (w, h, hp)).
  { destruct Hlen as [-> | ->]; cbn; eauto. }
  destruct Hsz as (w & h & hp & Hsz).
  unfold DDave.parse. rewrite Hsz. cbn [res_bind]. rewrite parse_enemies_some.
  split.
  - intros Hs. replace (Nat.leb 40 (List.length e)) with false by (symmetry; apply Nat.leb_gt; lia).
    reflexivity.
  - intros Hs. replace (Nat.leb 40 (List.length e)) with true by (symmetry; apply Nat.leb_le; lia).
    cbn [res_bind]. unfold DDave.new_Map2D_DDave. rewrite Hpl.
    eexists. do 3 f_equal.
    unfold Views.enemy_record, Views.enemy_item. cbn [seq map filter DDave.monster_items DDave.enabled
      DDave.pixelX DDave.pixelY].
    destruct (u16_at e (2 * 0) =? 0), (u16_at e (2 * 1) =? 0), (u16_at e (2 * 2) =? 0),
      (u16_at e (2 * 3) =? 0); reflexivity.
Qed.

Lemma ddave_parse_enemy_layer_witness :
  exists g, DDave.parse (Samples.zeros 70) (Some Samples.enemy_one) DDave.default_options =
    Ok (mkMap [Tiled g; Listed [mkItem 0 100 34]] None None []).
Proof.
  destruct (ddave_parse_enemy_layer (Samples.zeros 70) Samples.enemy_one DDave.default_options
              (or_introl eq_refl) eq_refl) as [_ H2].
  destruct H2 as [g Hg]; [cbn; lia|].
  exists g. rewrite Hg. reflexivity.
Defined.

(** For a first path of at most 128 points, [Map_DDave.checkLimits] fills
    its new array with one message for each point [i >= 1] that lies
    (0xEA, 0xEA) from point [i - 1], in path order, and returns [undefined]. *)
Theorem ddave_checkLimits_path_issues (m : map2d) (p0 : list point) (ps : list (list point))
    (H : list (list string)) :
  paths m = Some (p0 :: ps) ->
  (List.length p0 <= 128)%nat ->
  checkLimits Map_DDave (mkCState m H) =
  (Ok RetUndefined, mkCState m (H ++ [flat_map (fun i =>
      if Views.sentinel_step (nth (i - 1) p0 Views.origin) (nth i p0 Views.origin)
      then [ddave_msg_sentinel i (nth i p0 Views.origin)] else []) (seq 1 (List.length p0 - 1))])).
Proof.
  intros Hp Hl.
  unfold checkLimits, ddave_checkLimits, base_checkLimits.
  rewrite (HeapProofs.cm_bind_step _ _ _ _ _ (eq_refl : alloc_array (mkCState m H) = (Ok (List.length H), mkCState m (H ++ [[]])))).
  cbv beta.
  rewrite (HeapProofs.cm_bind_step _ _ _ _ _ (eq_refl : get_map (mkCState m (H ++ [[]])) = (Ok m, _))).
  cbv beta. rewrite Hp.
  replace (Z.of_nat (List.length p0) >? DDave.DD_MAX_PATH) with false
    by (symmetry; unfold DDave.DD_MAX_PATH; rewrite Z.gtb_ltb; apply Z.ltb_ge; lia).
  destruct p0 as [|p t].
  - reflexivity.
  - cbn [ddave_path_loop].
    unfold cm_bind at 1 2, cm_ret at 1. cbv beta iota.
    rewrite (path_loop_issues m t p 1 [] H).
    unfold cm_ret. cbn [app List.length]. do 3 f_equal.
    replace (S (List.length t) - 1)%nat with (List.length t) by lia.
    rewrite flat_map_seq_shift. f_equal.
    apply flat_map_ext. intros j. cbn [Nat.sub nth]. rewrite Nat.sub_0_r. reflexivity.
Qed.

Lemma ddave_checkLimits_path_issues_witness :
  checkLimits Map_DDave (mkCState MoreSamples.sentinel_path_map []) =
  (Ok RetUndefined, mkCState MoreSamples.sentinel_path_map
     [[ddave_msg_sentinel 1 (mkPoint 244 244); ddave_msg_sentinel 2 (mkPoint 478 478)]]).
Proof.
  rewrite (ddave_checkLimits_path_issues MoreSamples.sentinel_path_map
             [mkPoint 10 10; mkPoint 244 244; mkPoint 478 478; mkPoint 0 0] [] [] eq_refl
             ltac:(cbn; lia)).
  reflexivity.
Defined.

(** [Operations.open] never loads a supplementary file, since [supps] is
    [null] for both handlers: it parses the main file alone, so a Dangerous
    Dave map opened from the command line has an empty monster layer. *)
Theorem cli_open_drops_supplementary (fs : string -> option (list Z)) (target : string)
    (main : list Z) :
  Cli.cli_open fs Map_Cosmo target main = Cosmo.parse main /\
  Cli.cli_open fs Map_DDave target main = DDave.parse main None DDave.default_options /\
  (forall m, Cli.cli_open fs Map_DDave target main = Ok m ->
     exists g, layers m = [Tiled g; Listed []]).
Proof.
  assert (E : Cli.cli_open fs Map_DDave target main = DDave.parse main None DDave.default_options)
    by reflexivity.
  split; [reflexivity|]. split; [exact E|].
  intros m Hm. rewrite E in Hm. unfold DDave.parse in Hm.
  destruct (Z.of_nat (List.length main) =? 10 * 7);
    [|destruct (Z.of_nat (List.length main) =? 1280)];
    cbn [res_bind] in Hm; try discriminate;
  cbn [DDave.parse_enemies res_bind DDave.new_Map2D_DDave DDave.default_options DDave.playerStartX] in Hm;
  injection Hm as <-; eexists; reflexivity.
Qed.

(** [Operations.save] throws a TypeError on every Cosmo map that
    [Operations.open] returns ([checkLimits] reads the missing actor layer),
    and on every Dangerous Dave map ([checkLimits] returns [undefined] or
    throws, and [problems.length] is read on [undefined]). *)
Theorem cli_save_after_open_throws (fs : string -> option (list Z)) (target target' : string)
    (main : list Z) (H : list (list string)) :
  (forall m, Cli.cli_open fs Map_Cosmo target main = Ok m ->
     Cli.cli_save Map_Cosmo m target' H = Throw TypeError) /\
  (forall m, Cli.cli_save Map_DDave m target' H = Throw TypeError).
Proof.
  split.
  - intros m Hm. destruct (CosmoProofs.parse_shape main m Hm) as (g & Hl & _).
    unfold Cli.cli_save, checkLimits, cosmo_checkLimits, base_checkLimits.
    rewrite (HeapProofs.cm_bind_step _ _ _ _ _ (eq_refl : alloc_array (mkCState m H) = (Ok (List.length H), mkCState m (H ++ [[]])))).
    cbv beta.
    rewrite (HeapProofs.cm_bind_step _ _ _ _ _ (eq_refl : get_map (mkCState m (H ++ [[]])) = (Ok m, _))).
    cbv beta. unfold cm_lift. rewrite Hl. reflexivity.
  - intros m. unfold Cli.cli_save.
    destruct (DDaveFacts.ddave_checkLimits_outcome (mkCState m H)) as [E|E];
      destruct (checkLimits Map_DDave (mkCState m H)) as [r s]; cbn [fst] in E; subst r;
      reflexivity.
Qed.

Lemma cli_save_after_open_throws_witness :
  match Cli.cli_open (fun _ => None) Map_Cosmo "map.mni"%string (Samples.cosmo_file 32764 32764)
        return Prop with
  | Ok m => Cli.cli_save Map_Cosmo m "out.mni"%string [] = Throw TypeError
  | _ => False
  end.
Proof.
  assert (Hok : res_is_ok (Cli.cli_open (fun _ => None) Map_Cosmo "map.mni"%string
                             (Samples.cosmo_file 32764 32764)) = true)
    by (vm_compute; reflexivity).
  destruct (Cli.cli_open (fun _ => None) Map_Cosmo "map.mni"%string (Samples.cosmo_file 32764 32764))
    as [m| |] eqn:E; [|discriminate|discriminate].
  exact (proj1 (cli_save_after_open_throws (fun _ => None) "map.mni"%string "out.mni"%string
                  (Samples.cosmo_file 32764 32764) []) m E).
Defined.

End Extras.
